(** * Host-side exception interception of the enclave runtime

    A shallow embedding of the host's Linux exception source: the signal
    registry [g_previous_sigaction], the multiplexing handler
    [_host_signal_handler] and the installer [_register_signal_handlers],
    together with the properties of the design document that concern them.

    The C code talks to the operating system through [<signal.h>].  The
    numeric values of that header are not part of the repository, so they
    are the fields of the class [Platform]; the instance [linux_x86_64]
    gives the values of the one target the file is compiled for (it reads
    [REG_RAX], [REG_RBX] and [REG_RIP] out of an x86-64 [ucontext_t]). *)

From stdpp Require Import base decidable option list gmap sets.
From Stdlib Require Import ZArith Lia.

Open Scope Z_scope.

(** ** The platform headers *)

(** The constants of [<signal.h>], [<ucontext.h>] and of the runtime's
    [exception.h] that the source names, and the address the linker gives
    to the handler function. *)
Class Platform := {
  SIGHUP : Z; SIGILL : Z; SIGTRAP : Z; SIGABRT : Z; SIGBUS : Z; SIGFPE : Z;
  SIGKILL : Z; SIGUSR1 : Z; SIGSEGV : Z; SIGUSR2 : Z; SIGPIPE : Z;
  SIGALRM : Z; SIGSTOP : Z; SIGPOLL : Z;
  _NSIG : Z;
  SIG_DFL : Z; SIG_IGN : Z;
  SA_SIGINFO : Z; SA_NODEFER : Z; SA_RESTART : Z; SA_RESETHAND : Z;
  REG_RAX : nat; REG_RBX : nat; REG_RIP : nat;
  OE_EXCEPTION_CONTINUE_EXECUTION : Z;
  host_signal_handler_addr : Z
}.

(** x86-64 Linux with glibc. *)
Definition linux_x86_64 : Platform := {|
  SIGHUP := 1; SIGILL := 4; SIGTRAP := 5; SIGABRT := 6; SIGBUS := 7;
  SIGFPE := 8; SIGKILL := 9; SIGUSR1 := 10; SIGSEGV := 11; SIGUSR2 := 12;
  SIGPIPE := 13; SIGALRM := 14; SIGSTOP := 19; SIGPOLL := 29;
  _NSIG := 65;
  SIG_DFL := 0; SIG_IGN := 1;
  SA_SIGINFO := 0x4; SA_NODEFER := 0x40000000; SA_RESTART := 0x10000000;
  SA_RESETHAND := 0x80000000;
  REG_RAX := 13; REG_RBX := 11; REG_RIP := 16;
  OE_EXCEPTION_CONTINUE_EXECUTION := 0xFFFFFFFF;
  host_signal_handler_addr := 0x401000
|}.

(** ** C integer conversions *)

(** [(uint64_t)x] *)
Definition to_uint64 (x : Z) : Z := x mod 2 ^ 64.

(** [(int)x] *)
Definition to_int (x : Z) : Z := (x + 2 ^ 31) mod 2 ^ 32 - 2 ^ 31.

(** ** Data *)

(** [sigset_t]: a set of signal numbers. *)
Abbreviation sigset_t := (gset Z).

(** [struct sigaction].  [sa_handler] and [sa_sigaction] are the two
    members of one union: a single code address. *)
Record struct_sigaction := {
  sa_handler : Z;
  sa_mask : sigset_t;
  sa_flags : Z
}.

Definition sa_sigaction (a : struct_sigaction) : Z := sa_handler a.

(** [siginfo_t], of which the handler reads [si_addr]. *)
Record siginfo_t := { si_addr : Z }.

(** [ucontext_t], of which the handler reads [uc_mcontext.gregs]. *)
Record ucontext_t := { gregs : list Z }.

(** [oe_host_exception_context_t] *)
Record oe_host_exception_context_t := {
  rax : Z;
  rbx : Z;
  rip : Z;
  signal_number : Z;
  faulting_address : Z
}.

(** The state of the process that the signal calls read and write: the
    kernel's table of dispositions and the calling thread's signal mask. *)
Record os_state := {
  os_sigtable : gmap Z struct_sigaction;
  os_sigmask : sigset_t
}.

(** How a handler found in a saved disposition is entered. *)
Inductive call :=
  | CallHandler (sig : Z)
  | CallSigaction (sig : Z) (info : siginfo_t) (data : ucontext_t).

(** What the handler and the installer do that is visible from outside. *)
Inductive event :=
  | EvSubmit (ctx : oe_host_exception_context_t)
  | EvCall (addr : Z) (c : call) (mask : sigset_t)
  | EvDefaultAction (sig : Z)
  | EvIgnored (sig : Z)
  | EvEnterHandler (addr : Z) (sig : Z)
  | EvPending (sig : Z)
  | EvRegistryWrite (sig : Z).

(** The state a run works on: the static array [g_previous_sigaction],
    the process state, and the events so far. *)
Record world := {
  g_previous_sigaction : gmap Z struct_sigaction;
  os : os_state;
  trace : list event
}.

Section Exception.

Context `{Platform}.

(** An object with static storage duration starts zeroed, and so does a
    [struct sigaction] after [memset(&a, 0, sizeof a)]. *)
Definition zero_sigaction : struct_sigaction :=
  {| sa_handler := 0; sa_mask := ∅; sa_flags := 0 |}.

(** [tbl[i]] for an array of [struct sigaction]; the entries that were
    never written hold their initial, zeroed value. *)
Definition entry (tbl : gmap Z struct_sigaction) (i : Z) : struct_sigaction :=
  default zero_sigaction (tbl !! i).

(** The kernel's table starts every signal at the default action. *)
Definition disposition (s : os_state) (sig : Z) : struct_sigaction :=
  default {| sa_handler := SIG_DFL; sa_mask := ∅; sa_flags := 0 |}
          (os_sigtable s !! sig).

Definition set_os (s : os_state) (w : world) : world :=
  {| g_previous_sigaction := g_previous_sigaction w; os := s;
     trace := trace w |}.

Definition log (e : event) (w : world) : world :=
  {| g_previous_sigaction := g_previous_sigaction w; os := os w;
     trace := trace w ++ [e] |}.

(** A store into [g_previous_sigaction[sig]]; every store is recorded. *)
Definition set_previous (sig : Z) (a : struct_sigaction) (w : world) : world :=
  {| g_previous_sigaction := <[sig := a]> (g_previous_sigaction w);
     os := os w; trace := trace w ++ [EvRegistryWrite sig] |}.

(** [flags & flag] read as a condition. *)
Definition has_flag (flags flag : Z) : bool := negb (Z.land flags flag =? 0).

(** ** The signal calls of the C library

    These are the calls the source makes, with the behaviour POSIX and
    glibc give them for the arguments the source passes. *)

(** The numbers the C library accepts as a signal. *)
Definition valid_signal (sig : Z) : bool :=
  bool_decide (1 ≤ sig) && bool_decide (sig < _NSIG).

(** The signals whose disposition can be changed. *)
Definition catchable (sig : Z) : bool :=
  valid_signal sig && negb (sig =? SIGKILL) && negb (sig =? SIGSTOP).

Definition sigemptyset : sigset_t := ∅.

(** [sigaddset(&set, sig)]; an invalid number leaves the set alone. *)
Definition sigaddset (set : sigset_t) (sig : Z) : sigset_t :=
  if valid_signal sig then {[sig]} ∪ set else set.

(** [sigdelset(&set, sig)] *)
Definition sigdelset (set : sigset_t) (sig : Z) : sigset_t :=
  if valid_signal sig then set ∖ {[sig]} else set.

(** The system calls whose result the source checks.  A call can be
    refused for a reason outside this model; [refused] says which are. *)
Inductive syscall :=
  | SysSigprocmask
  | SysSigaction (sig : Z).

(** [sigaction(sig, &act, &old)]: [Some (old, s')] is the return value 0,
    with the previous disposition stored through [old]; [None] is -1,
    with nothing stored and nothing changed. *)
Definition sigaction (refused : syscall → bool) (sig : Z)
    (act : struct_sigaction) (s : os_state)
  : option (struct_sigaction * os_state) :=
  if catchable sig && negb (refused (SysSigaction sig)) then
    Some (disposition s sig,
          {| os_sigtable := <[sig := act]> (os_sigtable s);
             os_sigmask := os_sigmask s |})
  else None.

(** The [how] argument of [sigprocmask] and [pthread_sigmask]. *)
Inductive sigmask_how := SIG_BLOCK | SIG_UNBLOCK | SIG_SETMASK.

(** The mask after a change; a null [set] pointer is [None] and changes
    nothing. *)
Definition change_mask (how : sigmask_how) (set : option sigset_t)
    (s : os_state) : os_state :=
  match set with
  | None => s
  | Some set =>
      {| os_sigtable := os_sigtable s;
         os_sigmask := match how with
                       | SIG_BLOCK => os_sigmask s ∪ set
                       | SIG_UNBLOCK => os_sigmask s ∖ set
                       | SIG_SETMASK => set
                       end |}
  end.

(** [sigprocmask(how, set, &old)], whose result the installer checks:
    [Some (old, s')] is the return value 0, [None] is -1. *)
Definition sigprocmask (refused : syscall → bool) (how : sigmask_how)
    (set : option sigset_t) (s : os_state) : option (sigset_t * os_state) :=
  if refused SysSigprocmask then None
  else Some (os_sigmask s, change_mask how set s).

(** [pthread_sigmask(how, set, &old)] in the handler, where the result is
    not looked at: it gives back the old mask and installs the new one. *)
Definition pthread_sigmask (how : sigmask_how) (set : option sigset_t)
    (s : os_state) : sigset_t * os_state :=
  (os_sigmask s, change_mask how set s).

(** [signal(sig, handler)], which glibc implements with [sigaction]: the
    new disposition has the handler, the mask [{sig}] and [SA_RESTART]. *)
Definition signal (sig handler : Z) (s : os_state) : os_state :=
  if catchable sig then
    {| os_sigtable :=
         <[sig := {| sa_handler := handler; sa_mask := {[sig]};
                     sa_flags := SA_RESTART |}]> (os_sigtable s);
       os_sigmask := os_sigmask s |}
  else s.

(** [raise(sig)]: the signal is generated for the calling thread.  A
    blocked signal stays pending; otherwise the kernel acts on the live
    disposition. *)
Definition raise (sig : Z) (w : world) : world :=
  if valid_signal sig then
    if bool_decide (sig ∈ os_sigmask (os w)) then log (EvPending sig) w
    else
      let h := sa_handler (disposition (os w) sig) in
      if h =? SIG_DFL then log (EvDefaultAction sig) w
      else if h =? SIG_IGN then log (EvIgnored sig) w
      else log (EvEnterHandler h sig) w
  else w.

(** ** The handler *)

(** What the code at an address does to the process when it is entered as
    a signal handler, and the verdict of the isolated runtime
    ([oe_host_handle_exception]); both are outside the source file. *)
Variable code : Z → call → os_state → os_state.
Variable oe_host_handle_exception : oe_host_exception_context_t → Z.

(** [static int default_signals[]] *)
Definition default_signals : list Z :=
  [SIGBUS; SIGFPE; SIGILL; SIGSEGV; SIGTRAP].

(** [static int optional_signals[]] *)
Definition optional_signals : list Z :=
  [SIGHUP; SIGABRT; SIGALRM; SIGPIPE; SIGPOLL; SIGUSR1; SIGUSR2].

(** [context->uc_mcontext.gregs[r]] converted to [uint64_t] *)
Definition greg (context : ucontext_t) (r : nat) : Z :=
  to_uint64 (default 0 (gregs context !! r)).

(** The first loop of the handler: the number handed to the enclave is
    zeroed at the first default signal that is not [SIGSEGV]. *)
Fixpoint hide_default_signal (sig_num : Z) (signals : list Z)
    (signal_number : Z) : Z :=
  match signals with
  | [] => signal_number
  | s :: rest =>
      if (sig_num =? s) && negb (sig_num =? SIGSEGV) then 0
      else hide_default_signal sig_num rest signal_number
  end.

(** The context the handler fills in before it calls the runtime. *)
Definition host_context_of (sig_num : Z) (sig_info : siginfo_t)
    (context : ucontext_t) : oe_host_exception_context_t :=
  {| rax := greg context REG_RAX;
     rbx := greg context REG_RBX;
     rip := greg context REG_RIP;
     faulting_address := to_uint64 (si_addr sig_info);
     signal_number :=
       hide_default_signal sig_num default_signals (to_uint64 sig_num) |}.

(** The second loop: [true] when the handler returns from inside it. *)
Fixpoint bypass_optional_signal (sig_num : Z) (signals : list Z) : bool :=
  match signals with
  | [] => false
  | s :: rest =>
      if (sig_num =? s) && negb (sig_num =? SIGABRT) then true
      else bypass_optional_signal sig_num rest
  end.

(** Entering the handler stored at [addr]. *)
Definition invoke (addr : Z) (c : call) (w : world) : world :=
  set_os (code addr c (os w)) (log (EvCall addr c (os_sigmask (os w))) w).

(** The last branch of the handler: hand the signal to the handler that
    was there before. *)
Definition chain_previous (sig_num : Z) (sig_info : siginfo_t)
    (sig_data : ucontext_t) (w : world) : world :=
  let prev := entry (g_previous_sigaction w) sig_num in
  let w :=
    if negb (has_flag (sa_flags prev) SA_NODEFER) then
      set_previous sig_num
        {| sa_handler := sa_handler prev;
           sa_mask := sigaddset (sa_mask prev) sig_num;
           sa_flags := sa_flags prev |} w
    else w in
  let '(current_set, s) :=
    pthread_sigmask SIG_SETMASK
      (Some (sa_mask (entry (g_previous_sigaction w) sig_num))) (os w) in
  let w := set_os s w in
  let prev := entry (g_previous_sigaction w) sig_num in
  let w :=
    if has_flag (sa_flags prev) SA_SIGINFO then
      invoke (sa_sigaction prev) (CallSigaction sig_num sig_info sig_data) w
    else
      invoke (sa_handler prev) (CallHandler sig_num) w in
  let '(_, s) := pthread_sigmask SIG_SETMASK (Some current_set) (os w) in
  let w := set_os s w in
  let prev := entry (g_previous_sigaction w) sig_num in
  if has_flag (sa_flags prev) (to_int SA_RESETHAND) then
    set_previous sig_num
      {| sa_handler := SIG_DFL; sa_mask := sa_mask prev;
         sa_flags := sa_flags prev |} w
  else w.

(** [static void _host_signal_handler(sig_num, sig_info, sig_data)] *)
Definition _host_signal_handler (sig_num : Z) (sig_info : siginfo_t)
    (sig_data : ucontext_t) (w : world) : world :=
  let host_context := host_context_of sig_num sig_info sig_data in
  let action := oe_host_handle_exception host_context in
  let w := log (EvSubmit host_context) w in
  if action =? OE_EXCEPTION_CONTINUE_EXECUTION then w
  else if sa_handler (entry (g_previous_sigaction w) sig_num) =? SIG_DFL then
    if bypass_optional_signal sig_num optional_signals then w
    else raise sig_num (set_os (signal sig_num SIG_DFL (os w)) w)
  else chain_previous sig_num sig_info sig_data w.

(** ** The installer *)

(** A run of the installer either returns or ends in [abort()]. *)
Inductive outcome (A : Type) :=
  | Returns (a : A)
  | Aborts (w : world).
Global Arguments Returns {A} a.
Global Arguments Aborts {A} w.

Variable refused : syscall → bool.

(** One of the two loops of the installer: unmask the signal in the
    action being built, register the action for it and keep the previous
    one in the array. *)
Fixpoint register_signals (signals : list Z) (sig_action : struct_sigaction)
    (w : world) : outcome (struct_sigaction * world) :=
  match signals with
  | [] => Returns (sig_action, w)
  | signal_number :: rest =>
      let sig_action :=
        {| sa_handler := sa_handler sig_action;
           sa_mask := sigdelset (sa_mask sig_action) signal_number;
           sa_flags := sa_flags sig_action |} in
      match sigaction refused signal_number sig_action (os w) with
      | None => Aborts w
      | Some (previous, s) =>
          register_signals rest sig_action
            (set_previous signal_number previous (set_os s w))
      end
  end.

(** [static void _register_signal_handlers(void)] *)
Definition _register_signal_handlers (w : world) : outcome world :=
  let sig_action :=
    {| sa_handler := host_signal_handler_addr;
       sa_mask := sigemptyset;
       sa_flags := Z.lor (Z.lor SA_SIGINFO SA_NODEFER) SA_RESTART |} in
  match sigprocmask refused SIG_SETMASK None (os w) with
  | None => Aborts w
  | Some (mask, s) =>
      let sig_action :=
        {| sa_handler := sa_handler sig_action; sa_mask := mask;
           sa_flags := sa_flags sig_action |} in
      match register_signals default_signals sig_action (set_os s w) with
      | Aborts w => Aborts w
      | Returns (sig_action, w) =>
          match register_signals optional_signals sig_action w with
          | Aborts w => Aborts w
          | Returns (_, w) => Returns w
          end
      end
  end.

(** [void oe_initialize_host_exception()] *)
Definition oe_initialize_host_exception (w : world) : outcome world :=
  _register_signal_handlers w.

(** ** Vocabulary of the properties *)

(** The signals of both sets, in the order the installer visits them. *)
Definition catalog : list Z := default_signals ++ optional_signals.

(** The runtime did not resolve the exception. *)
Definition not_handled (sig_num : Z) (sig_info : siginfo_t)
    (sig_data : ucontext_t) : Prop :=
  oe_host_handle_exception (host_context_of sig_num sig_info sig_data)
  ≠ OE_EXCEPTION_CONTINUE_EXECUTION.

(** An event in which a signal handler is entered, by the chaining code
    or by the kernel. *)
Definition enters_handler (e : event) : Prop :=
  match e with
  | EvCall _ _ _ | EvEnterHandler _ _ => True
  | _ => False
  end.

(** The action the installer builds before its loops, given the mask the
    query reported. *)
Definition initial_action (mask : sigset_t) : struct_sigaction :=
  {| sa_handler := host_signal_handler_addr;
     sa_mask := mask;
     sa_flags := Z.lor (Z.lor SA_SIGINFO SA_NODEFER) SA_RESTART |}.

(** The mask the previous handler runs under: its saved mask, with the
    signal itself added unless the saved flags have [SA_NODEFER]. *)
Definition chained_mask (prev : struct_sigaction) (sig_num : Z) : sigset_t :=
  if has_flag (sa_flags prev) SA_NODEFER then sa_mask prev
  else sigaddset (sa_mask prev) sig_num.

(** The form in which the previous handler is entered. *)
Definition chained_call (prev : struct_sigaction) (sig_num : Z)
    (sig_info : siginfo_t) (sig_data : ucontext_t) : call :=
  if has_flag (sa_flags prev) SA_SIGINFO
  then CallSigaction sig_num sig_info sig_data
  else CallHandler sig_num.

(** The process state in which the previous handler starts. *)
Definition chained_entry_state (prev : struct_sigaction) (sig_num : Z)
    (s : os_state) : os_state :=
  {| os_sigtable := os_sigtable s; os_sigmask := chained_mask prev sig_num |}.

End Exception.

(** ** Sample processes on x86-64 Linux *)

Section Samples.

#[local] Existing Instance linux_x86_64.

Definition sample_info : siginfo_t := {| si_addr := 0x7f0000001000 |}.

Definition sample_context : ucontext_t := {| gregs := replicate 23 0 |}.

(** A previous handler that returns without touching the process. *)
Definition returning_handler : Z → call → os_state → os_state :=
  λ _ _ s, s.

(** A previous handler that blocks SIGHUP before it returns. *)
Definition blocking_handler : Z → call → os_state → os_state :=
  λ _ _ s, {| os_sigtable := os_sigtable s;
              os_sigmask := os_sigmask s ∪ {[SIGHUP]} |}.

(** A runtime that answers OE_EXCEPTION_CONTINUE_SEARCH, 0. *)
Definition runtime_declines : oe_host_exception_context_t → Z := λ _, 0.

(** A runtime that answers OE_EXCEPTION_CONTINUE_EXECUTION. *)
Definition runtime_resolves : oe_host_exception_context_t → Z :=
  λ _, OE_EXCEPTION_CONTINUE_EXECUTION.

Definition nothing_refused : syscall → bool := λ _, false.

(** The kernel refuses to register a handler for SIGUSR2. *)
Definition sigusr2_refused : syscall → bool :=
  λ c, match c with
       | SysSigaction sig => sig =? SIGUSR2
       | SysSigprocmask => false
       end.

(** A process before initialisation: its dispositions and its mask. *)
Definition process (table : gmap Z struct_sigaction) (mask : sigset_t)
  : world :=
  {| g_previous_sigaction := ∅;
     os := {| os_sigtable := table; os_sigmask := mask |};
     trace := [] |}.

(** The same process once [oe_initialize_host_exception] has run. *)
Definition installed (w : world) : world :=
  match oe_initialize_host_exception nothing_refused w with
  | Returns w' => w'
  | Aborts w' => w'
  end.

(** A handler at 0x5000 for SIGUSR1, with the flags given. *)
Definition sigusr1_handler (flags : Z) : gmap Z struct_sigaction :=
  {[ SIGUSR1 :=
       {| sa_handler := 0x5000; sa_mask := ∅; sa_flags := flags |} ]}.

(** SIGUSR1 ignored, registered with the flags given. *)
Definition sigusr1_ignored (flags : Z) : gmap Z struct_sigaction :=
  {[ SIGUSR1 :=
       {| sa_handler := SIG_IGN; sa_mask := ∅; sa_flags := flags |} ]}.

(** [sa_flags] with SA_RESETHAND alone: the [int] whose bit 31 is set. *)
Definition one_shot_flags : Z := to_int SA_RESETHAND.

End Samples.

(** ** Vocabulary of the further properties *)

(** The call of the runtime. *)
Definition is_submit (e : event) : bool :=
  match e with EvSubmit _ => true | _ => false end.

(** A call of a previous handler by the chaining code. *)
Definition is_call (e : event) : bool :=
  match e with EvCall _ _ _ => true | _ => false end.

(** The world a run of the installer ends in, returned or aborted. *)
Definition outcome_world (o : outcome world) : world :=
  match o with Returns w => w | Aborts w => w end.

(** The world one loop of the installer ends in. *)
Definition loop_world (o : outcome (struct_sigaction * world)) : world :=
  match o with Returns (_, w) => w | Aborts w => w end.

(** The condition under which the handler reaches its last branch. *)
Definition chains `{Platform} (rt : oe_host_exception_context_t → Z)
    (sig_num : Z) (sig_info : siginfo_t) (sig_data : ucontext_t)
    (w : world) : bool :=
  negb (rt (host_context_of sig_num sig_info sig_data)
        =? OE_EXCEPTION_CONTINUE_EXECUTION)
  && negb (sa_handler (entry (g_previous_sigaction w) sig_num) =? SIG_DFL).

(** The values of an [int]. *)
Definition is_int (x : Z) : Prop := - 2 ^ 31 ≤ x < 2 ^ 31.

(** * Properties *)

Section Properties.

Context `{Platform}.
Variable code : Z → call → os_state → os_state.
Variable oe_host_handle_exception : oe_host_exception_context_t → Z.

Local Abbreviation handler :=
  (_host_signal_handler code oe_host_handle_exception).
Local Abbreviation chain := (chain_previous code).
Local Abbreviation not_handled := (not_handled oe_host_handle_exception).

(** ** The two loops of the handler *)

Lemma hide_default_signal_in sig_num signals n :
  sig_num ∈ signals → sig_num ≠ SIGSEGV →
  hide_default_signal sig_num signals n = 0.
Proof.
  intros Hin Hne. induction signals as [|s rest IH]; simpl.
  - by apply not_elem_of_nil in Hin.
  - destruct (Z.eqb_spec sig_num s) as [->|Hs]; simpl.
    + destruct (Z.eqb_spec s SIGSEGV); [contradiction|done].
    + apply IH. apply elem_of_cons in Hin as [?|?]; [contradiction|done].
Qed.

Lemma hide_default_signal_segv signals n :
  hide_default_signal SIGSEGV signals n = n.
Proof.
  induction signals as [|s rest IH]; simpl; [done|].
  rewrite Z.eqb_refl, andb_false_r. apply IH.
Qed.

Lemma hide_default_signal_notin sig_num signals n :
  sig_num ∉ signals → hide_default_signal sig_num signals n = n.
Proof.
  induction signals as [|s rest IH]; simpl; [done|].
  intros Hnotin. apply not_elem_of_cons in Hnotin as [Hs Hrest].
  destruct (Z.eqb_spec sig_num s); [contradiction|]. simpl. by apply IH.
Qed.

Lemma bypass_optional_signal_true sig_num signals :
  sig_num ∈ signals → sig_num ≠ SIGABRT →
  bypass_optional_signal sig_num signals = true.
Proof.
  intros Hin Hne. induction signals as [|s rest IH]; simpl.
  - by apply not_elem_of_nil in Hin.
  - destruct (Z.eqb_spec sig_num s) as [->|Hs]; simpl.
    + destruct (Z.eqb_spec s SIGABRT); [contradiction|done].
    + apply IH. apply elem_of_cons in Hin as [?|?]; [contradiction|done].
Qed.

Lemma bypass_optional_signal_abrt signals :
  bypass_optional_signal SIGABRT signals = false.
Proof.
  induction signals as [|s rest IH]; simpl; [done|].
  rewrite Z.eqb_refl, andb_false_r. apply IH.
Qed.

Lemma bypass_optional_signal_notin sig_num signals :
  sig_num ∉ signals → bypass_optional_signal sig_num signals = false.
Proof.
  induction signals as [|s rest IH]; simpl; [done|].
  intros Hnotin. apply not_elem_of_cons in Hnotin as [Hs Hrest].
  destruct (Z.eqb_spec sig_num s); [contradiction|]. simpl. by apply IH.
Qed.

(** ** The branches of the handler *)

Lemma handler_continue sig_num sig_info sig_data w :
  oe_host_handle_exception (host_context_of sig_num sig_info sig_data)
  = OE_EXCEPTION_CONTINUE_EXECUTION →
  handler sig_num sig_info sig_data w
  = log (EvSubmit (host_context_of sig_num sig_info sig_data)) w.
Proof.
  intros Hact. unfold _host_signal_handler. by rewrite Hact, Z.eqb_refl.
Qed.

Lemma handler_default sig_num sig_info sig_data w :
  not_handled sig_num sig_info sig_data →
  sa_handler (entry (g_previous_sigaction w) sig_num) = SIG_DFL →
  handler sig_num sig_info sig_data w
  = let w1 := log (EvSubmit (host_context_of sig_num sig_info sig_data)) w in
    if bypass_optional_signal sig_num optional_signals then w1
    else raise sig_num (set_os (signal sig_num SIG_DFL (os w1)) w1).
Proof.
  intros Hact Hdfl. unfold _host_signal_handler.
  destruct (Z.eqb_spec (oe_host_handle_exception
    (host_context_of sig_num sig_info sig_data))
    OE_EXCEPTION_CONTINUE_EXECUTION) as [Heq|_]; [by destruct Hact|].
  simpl. by rewrite Hdfl, Z.eqb_refl.
Qed.

Lemma handler_chain sig_num sig_info sig_data w :
  not_handled sig_num sig_info sig_data →
  sa_handler (entry (g_previous_sigaction w) sig_num) ≠ SIG_DFL →
  handler sig_num sig_info sig_data w
  = chain sig_num sig_info sig_data
      (log (EvSubmit (host_context_of sig_num sig_info sig_data)) w).
Proof.
  intros Hact Hdfl. unfold _host_signal_handler.
  destruct (Z.eqb_spec (oe_host_handle_exception
    (host_context_of sig_num sig_info sig_data))
    OE_EXCEPTION_CONTINUE_EXECUTION) as [Heq|_]; [by destruct Hact|].
  simpl. by destruct (Z.eqb_spec
    (sa_handler (entry (g_previous_sigaction w) sig_num)) SIG_DFL).
Qed.

Lemma entry_insert_eq (tbl : gmap Z struct_sigaction) i a :
  entry (<[i := a]> tbl) i = a.
Proof. unfold entry. by rewrite lookup_insert_eq. Qed.

Lemma entry_insert_ne (tbl : gmap Z struct_sigaction) i j a :
  i ≠ j → entry (<[i := a]> tbl) j = entry tbl j.
Proof. intros Hne. unfold entry. by rewrite lookup_insert_ne. Qed.

(** The chaining branch, step by step, as one equation. *)
Lemma chain_previous_eq sig_num sig_info sig_data w :
  let prev := entry (g_previous_sigaction w) sig_num in
  let m := chained_mask prev sig_num in
  let c := chained_call prev sig_num sig_info sig_data in
  let nodefer := has_flag (sa_flags prev) SA_NODEFER in
  let resethand := has_flag (sa_flags prev) (to_int SA_RESETHAND) in
  let reg1 :=
    if nodefer then g_previous_sigaction w
    else <[sig_num := {| sa_handler := sa_handler prev; sa_mask := m;
                         sa_flags := sa_flags prev |}]>
           (g_previous_sigaction w) in
  chain sig_num sig_info sig_data w
  = {| g_previous_sigaction :=
         if resethand
         then <[sig_num := {| sa_handler := SIG_DFL; sa_mask := m;
                              sa_flags := sa_flags prev |}]> reg1
         else reg1;
       os := {| os_sigtable :=
                  os_sigtable (code (sa_handler prev) c
                                 (chained_entry_state prev sig_num (os w)));
                os_sigmask := os_sigmask (os w) |};
       trace := trace w
                ++ (if nodefer then [] else [EvRegistryWrite sig_num])
                ++ [EvCall (sa_handler prev) c m]
                ++ (if resethand then [EvRegistryWrite sig_num] else []) |}.
Proof.
  intros prev m c nodefer resethand reg1.
  subst prev m c nodefer resethand reg1.
  unfold chain_previous, chained_call, chained_entry_state, chained_mask.
  destruct (has_flag (sa_flags (entry (g_previous_sigaction w) sig_num))
              SA_NODEFER) eqn:Hnd;
  destruct (has_flag (sa_flags (entry (g_previous_sigaction w) sig_num))
              SA_SIGINFO) eqn:Hsi;
  destruct (has_flag (sa_flags (entry (g_previous_sigaction w) sig_num))
              (to_int SA_RESETHAND)) eqn:Hrh;
  cbn -[has_flag to_int sigaddset];
  rewrite ?entry_insert_eq; cbn -[has_flag to_int sigaddset];
  rewrite ?Hsi; cbn -[has_flag to_int sigaddset];
  rewrite ?entry_insert_eq; cbn -[has_flag to_int sigaddset];
  rewrite ?Hrh; cbn -[has_flag to_int sigaddset];
  unfold sa_sigaction, set_previous, invoke, set_os, log;
  cbn -[has_flag to_int sigaddset];
  rewrite ?entry_insert_eq, ?app_nil_r, <- ?app_assoc;
  reflexivity.
Qed.

(** ** Default disposition and re-delivery *)

Lemma catchable_valid sig : catchable sig = true → valid_signal sig = true.
Proof.
  unfold catchable. intros Hc.
  apply andb_prop in Hc as [Hc _]. by apply andb_prop in Hc as [Hc _].
Qed.

Lemma signal_disposition sig h s :
  catchable sig = true → sa_handler (disposition (signal sig h s) sig) = h.
Proof.
  intros Hc. unfold signal, disposition. rewrite Hc. simpl.
  by rewrite lookup_insert_eq.
Qed.

Lemma signal_other sig h s sig' :
  sig' ≠ sig → os_sigtable (signal sig h s) !! sig' = os_sigtable s !! sig'.
Proof.
  intros Hne. unfold signal. destruct (catchable sig); [|done]. simpl.
  by rewrite lookup_insert_ne.
Qed.

Lemma signal_sigmask sig h s : os_sigmask (signal sig h s) = os_sigmask s.
Proof. unfold signal. by destruct (catchable sig). Qed.

(** Re-delivery after the disposition was put back to default never
    enters a handler: the default action is taken, or the signal waits. *)
Lemma reraise_default sig w :
  catchable sig = true →
  raise sig (set_os (signal sig SIG_DFL (os w)) w)
  = log (if bool_decide (sig ∈ os_sigmask (os w))
         then EvPending sig else EvDefaultAction sig)
        (set_os (signal sig SIG_DFL (os w)) w).
Proof.
  intros Hc. unfold raise. rewrite (catchable_valid _ Hc).
  cbn [set_os os]. rewrite signal_sigmask, (signal_disposition _ _ _ Hc).
  rewrite Z.eqb_refl. by destruct (bool_decide _).
Qed.

(** The first thing a delivery does is to submit the context. *)
Lemma handler_submits sig_num sig_info sig_data w :
  ∃ rest,
    trace (handler sig_num sig_info sig_data w)
    = trace w ++ EvSubmit (host_context_of sig_num sig_info sig_data) :: rest.
Proof.
  destruct (decide (oe_host_handle_exception
    (host_context_of sig_num sig_info sig_data)
    = OE_EXCEPTION_CONTINUE_EXECUTION)) as [Hact|Hact].
  { exists []. by rewrite handler_continue. }
  destruct (decide (sa_handler (entry (g_previous_sigaction w) sig_num)
                    = SIG_DFL)) as [Hdfl|Hdfl].
  - rewrite handler_default by done. cbn zeta.
    destruct (bypass_optional_signal sig_num optional_signals);
      [by exists []|].
    unfold raise. destruct (valid_signal sig_num); [|by exists []].
    repeat case_match; cbn [log set_os trace]; rewrite <- app_assoc;
      by eexists.
  - rewrite handler_chain, chain_previous_eq by done.
    cbn [trace log]. rewrite <- app_assoc. by eexists.
Qed.

Lemma to_uint64_small z : 0 ≤ z < 2 ^ 31 → to_uint64 z = z.
Proof. intros Hz. unfold to_uint64. apply Z.mod_small. lia. Qed.

Lemma catalog_disjoint sig_num :
  NoDup catalog → sig_num ∈ default_signals → sig_num ∉ optional_signals.
Proof.
  unfold catalog. intros Hnd Hdef Hopt.
  apply NoDup_app in Hnd as (_ & Hdisj & _). by apply (Hdisj sig_num).
Qed.

(** ** The number reported to the runtime *)

(** C1. The context submitted to the isolated runtime carries 0 as its
    signal number for a mandatory signal other than SIGSEGV, and the
    number that was delivered for SIGSEGV and for every optional signal. *)
Theorem reported_signal_number sig_num sig_info sig_data w :
  NoDup catalog →
  0 ≤ sig_num < 2 ^ 31 →
  let ctx := host_context_of sig_num sig_info sig_data in
  (∃ rest, trace (handler sig_num sig_info sig_data w)
           = trace w ++ EvSubmit ctx :: rest)
  ∧ (sig_num ∈ default_signals → sig_num ≠ SIGSEGV → signal_number ctx = 0)
  ∧ (sig_num = SIGSEGV ∨ sig_num ∈ optional_signals →
     signal_number ctx = sig_num).
Proof.
  intros Hnd Hrange ctx. split; [apply handler_submits|]. split.
  - intros Hin Hne. by apply hide_default_signal_in.
  - intros [->|Hopt]; cbn [ctx host_context_of signal_number].
    + rewrite hide_default_signal_segv. by apply to_uint64_small.
    + rewrite hide_default_signal_notin; [by apply to_uint64_small|].
      intros Hdef. by apply (catalog_disjoint sig_num).
Qed.

(** ** Verdict CONTINUE *)

(** C9. When the runtime answers CONTINUE the handler returns at once:
    the registry, every live disposition and the signal mask are as they
    were, and the only event of the delivery is the submission. *)
Theorem continue_changes_nothing sig_num sig_info sig_data w :
  oe_host_handle_exception (host_context_of sig_num sig_info sig_data)
  = OE_EXCEPTION_CONTINUE_EXECUTION →
  let w' := handler sig_num sig_info sig_data w in
  g_previous_sigaction w' = g_previous_sigaction w
  ∧ os_sigtable (os w') = os_sigtable (os w)
  ∧ os_sigmask (os w') = os_sigmask (os w)
  ∧ trace w'
    = trace w ++ [EvSubmit (host_context_of sig_num sig_info sig_data)].
Proof. intros Hact w'. subst w'. by rewrite handler_continue. Qed.

(** ** Saved disposition: default *)

(** C5. NOT_HANDLED, saved disposition default, optional signal other
    than SIGABRT: the handler returns without doing anything; no write to
    the registry, no change of mask or disposition, no re-raise. *)
Theorem optional_signal_swallowed sig_num sig_info sig_data w :
  not_handled sig_num sig_info sig_data →
  sa_handler (entry (g_previous_sigaction w) sig_num) = SIG_DFL →
  sig_num ∈ optional_signals →
  sig_num ≠ SIGABRT →
  let w' := handler sig_num sig_info sig_data w in
  g_previous_sigaction w' = g_previous_sigaction w
  ∧ os_sigtable (os w') = os_sigtable (os w)
  ∧ os_sigmask (os w') = os_sigmask (os w)
  ∧ trace w'
    = trace w ++ [EvSubmit (host_context_of sig_num sig_info sig_data)].
Proof.
  intros Hact Hdfl Hopt Habrt w'. subst w'.
  rewrite handler_default by done. cbn zeta.
  by rewrite bypass_optional_signal_true.
Qed.

(** C6. NOT_HANDLED, saved disposition default, mandatory signal or
    SIGABRT: the handler puts the live disposition of this one signal
    back to default and raises the signal again; the default action is
    taken once and no handler is entered.  The signal is one the kernel
    delivers to a handler ([catchable]) and, being handled under
    SA_NODEFER with a mask that leaves it out, it is not blocked. *)
Theorem default_action_reraised sig_num sig_info sig_data w :
  NoDup catalog →
  not_handled sig_num sig_info sig_data →
  sa_handler (entry (g_previous_sigaction w) sig_num) = SIG_DFL →
  sig_num ∈ default_signals ∨ sig_num = SIGABRT →
  catchable sig_num = true →
  sig_num ∉ os_sigmask (os w) →
  let w' := handler sig_num sig_info sig_data w in
  sa_handler (disposition (os w') sig_num) = SIG_DFL
  ∧ (∀ s, s ≠ sig_num → os_sigtable (os w') !! s = os_sigtable (os w) !! s)
  ∧ os_sigmask (os w') = os_sigmask (os w)
  ∧ g_previous_sigaction w' = g_previous_sigaction w
  ∧ trace w'
    = trace w ++ [EvSubmit (host_context_of sig_num sig_info sig_data);
                  EvDefaultAction sig_num].
Proof.
  intros Hnd Hact Hdfl Hsig Hc Hmask w'. subst w'.
  rewrite handler_default by done. cbn zeta.
  assert (bypass_optional_signal sig_num optional_signals = false) as ->.
  { destruct Hsig as [Hdef| ->]; [|apply bypass_optional_signal_abrt].
    apply bypass_optional_signal_notin. by apply catalog_disjoint. }
  rewrite reraise_default by done. cbn [log set_os os trace].
  rewrite bool_decide_eq_false_2 by done.
  cbn [log set_os os trace g_previous_sigaction].
  rewrite signal_sigmask, signal_disposition, <- app_assoc by done.
  repeat split; try done. intros s Hs. by apply signal_other.
Qed.

(** ** Saved disposition: a handler *)

Lemma chain_enters_previous sig_num sig_info sig_data w :
  not_handled sig_num sig_info sig_data →
  sa_handler (entry (g_previous_sigaction w) sig_num) ≠ SIG_DFL →
  let prev := entry (g_previous_sigaction w) sig_num in
  EvCall (sa_handler prev) (chained_call prev sig_num sig_info sig_data)
    (chained_mask prev sig_num)
  ∈ trace (handler sig_num sig_info sig_data w).
Proof.
  intros Hact Hdfl prev. subst prev.
  rewrite handler_chain, chain_previous_eq by done.
  cbn [log trace g_previous_sigaction]. set_solver.
Qed.

(** C7. Chaining is a round trip on the signal mask: the previous handler
    is entered, in the form its flags ask for, under its saved mask, and
    when it has returned the mask is the one in force before the swap,
    whatever the handler did to it. *)
Theorem chain_restores_mask sig_num sig_info sig_data w :
  not_handled sig_num sig_info sig_data →
  sa_handler (entry (g_previous_sigaction w) sig_num) ≠ SIG_DFL →
  let prev := entry (g_previous_sigaction w) sig_num in
  let c := chained_call prev sig_num sig_info sig_data in
  let w' := handler sig_num sig_info sig_data w in
  os_sigmask (os w') = os_sigmask (os w)
  ∧ os_sigtable (os w')
    = os_sigtable (code (sa_handler prev) c
                     (chained_entry_state prev sig_num (os w)))
  ∧ EvCall (sa_handler prev) c (chained_mask prev sig_num) ∈ trace w'.
Proof.
  intros Hact Hdfl prev c w'. subst prev c w'.
  split; [|split]; [| |by apply chain_enters_previous].
  - by rewrite handler_chain, chain_previous_eq.
  - by rewrite handler_chain, chain_previous_eq.
Qed.

(** C10 (as amended). A saved disposition of SIG_IGN is not the default
    one, so with NOT_HANDLED the handler chains: it calls the address
    SIG_IGN as a handler, in the simple form when the saved flags lack
    SA_SIGINFO and in the extended form when they have it. *)
Theorem ignored_disposition_is_called sig_num sig_info sig_data w :
  SIG_IGN ≠ SIG_DFL →
  not_handled sig_num sig_info sig_data →
  sa_handler (entry (g_previous_sigaction w) sig_num) = SIG_IGN →
  let prev := entry (g_previous_sigaction w) sig_num in
  let w' := handler sig_num sig_info sig_data w in
  w' = chain sig_num sig_info sig_data
         (log (EvSubmit (host_context_of sig_num sig_info sig_data)) w)
  ∧ (has_flag (sa_flags prev) SA_SIGINFO = false →
     EvCall SIG_IGN (CallHandler sig_num) (chained_mask prev sig_num)
     ∈ trace w')
  ∧ (has_flag (sa_flags prev) SA_SIGINFO = true →
     EvCall SIG_IGN (CallSigaction sig_num sig_info sig_data)
       (chained_mask prev sig_num) ∈ trace w').
Proof.
  intros Hne Hact Hign prev w'. subst prev w'.
  assert (sa_handler (entry (g_previous_sigaction w) sig_num) ≠ SIG_DFL)
    as Hdfl by congruence.
  split; [by apply handler_chain|].
  pose proof (chain_enters_previous sig_num sig_info sig_data w Hact Hdfl)
    as Hcall.
  cbn zeta in Hcall. rewrite Hign in Hcall. unfold chained_call in Hcall.
  split; intros Hflag; by rewrite Hflag in Hcall.
Qed.

(** ** Writes to the registry during a delivery *)

Lemma raise_registry sig w :
  g_previous_sigaction (raise sig w) = g_previous_sigaction w.
Proof. unfold raise. by repeat case_match. Qed.

Lemma delivery_keeps_other_entries sig_num sig_info sig_data w s :
  s ≠ sig_num →
  g_previous_sigaction (handler sig_num sig_info sig_data w) !! s
  = g_previous_sigaction w !! s.
Proof.
  intros Hs.
  destruct (decide (oe_host_handle_exception
    (host_context_of sig_num sig_info sig_data)
    = OE_EXCEPTION_CONTINUE_EXECUTION)) as [Hact|Hact].
  { by rewrite handler_continue. }
  destruct (decide (sa_handler (entry (g_previous_sigaction w) sig_num)
                    = SIG_DFL)) as [Hdfl|Hdfl].
  - rewrite handler_default by done. cbn zeta.
    destruct (bypass_optional_signal sig_num optional_signals); [done|].
    by rewrite raise_registry.
  - rewrite handler_chain, chain_previous_eq by done.
    cbn [log g_previous_sigaction].
    repeat case_match; by rewrite ?lookup_insert_ne.
Qed.

Lemma delivery_without_chain_keeps_registry sig_num sig_info sig_data w :
  oe_host_handle_exception (host_context_of sig_num sig_info sig_data)
  = OE_EXCEPTION_CONTINUE_EXECUTION
  ∨ sa_handler (entry (g_previous_sigaction w) sig_num) = SIG_DFL →
  g_previous_sigaction (handler sig_num sig_info sig_data w)
  = g_previous_sigaction w.
Proof.
  destruct (decide (oe_host_handle_exception
    (host_context_of sig_num sig_info sig_data)
    = OE_EXCEPTION_CONTINUE_EXECUTION)) as [Hact|Hact].
  { intros _. by rewrite handler_continue. }
  intros [?|Hdfl]; [done|].
  rewrite handler_default by done. cbn zeta.
  destruct (bypass_optional_signal sig_num optional_signals); [done|].
  by rewrite raise_registry.
Qed.

Lemma chained_delivery_entry sig_num sig_info sig_data w :
  not_handled sig_num sig_info sig_data →
  sa_handler (entry (g_previous_sigaction w) sig_num) ≠ SIG_DFL →
  let prev := entry (g_previous_sigaction w) sig_num in
  entry (g_previous_sigaction (handler sig_num sig_info sig_data w)) sig_num
  = {| sa_handler := if has_flag (sa_flags prev) (to_int SA_RESETHAND)
                     then SIG_DFL else sa_handler prev;
       sa_mask := chained_mask prev sig_num;
       sa_flags := sa_flags prev |}.
Proof.
  intros Hact Hdfl prev. subst prev.
  rewrite handler_chain, chain_previous_eq by done.
  cbn [log g_previous_sigaction]. unfold chained_mask.
  destruct (has_flag _ SA_NODEFER), (has_flag _ (to_int SA_RESETHAND));
    rewrite ?entry_insert_eq; try done.
  by destruct (entry (g_previous_sigaction w) sig_num).
Qed.

End Properties.

(** * The installer *)

Section Installer.

Context `{Platform}.
Variable refused : syscall → bool.

Local Abbreviation register := (register_signals refused).

Lemma set_os_same w : set_os (os w) w = w.
Proof. by destruct w. Qed.

Lemma register_signals_app l1 l2 act w :
  register (l1 ++ l2) act w
  = match register l1 act w with
    | Aborts w' => Aborts w'
    | Returns (act', w') => register l2 act' w'
    end.
Proof.
  revert act w. induction l1 as [|s l1 IH]; intros act w; [done|].
  cbn [app register_signals]. destruct (sigaction _ _ _ _) as [[prev s']|];
    [apply IH|done].
Qed.

(** The two loops run as one pass over the catalog. *)
Lemma register_signal_handlers_eq w :
  _register_signal_handlers refused w
  = if refused SysSigprocmask then Aborts w
    else match register catalog (initial_action (os_sigmask (os w))) w with
         | Aborts w' => Aborts w'
         | Returns (_, w') => Returns w'
         end.
Proof.
  unfold _register_signal_handlers, sigprocmask, catalog.
  destruct (refused SysSigprocmask); [done|].
  cbn [change_mask sa_handler sa_flags]. rewrite set_os_same.
  rewrite register_signals_app. unfold initial_action.
  destruct (register default_signals _ w) as [[act1 w1]|w1]; [|done].
  by destruct (register optional_signals act1 w1) as [[act2 w2]|w2].
Qed.

Lemma sigaction_Some sig act s prev s' :
  sigaction refused sig act s = Some (prev, s') →
  catchable sig = true ∧ refused (SysSigaction sig) = false
  ∧ prev = disposition s sig
  ∧ os_sigtable s' = <[sig := act]> (os_sigtable s)
  ∧ os_sigmask s' = os_sigmask s.
Proof.
  unfold sigaction. destruct (catchable sig); [|done].
  destruct (refused (SysSigaction sig)); [done|]. cbn [andb negb].
  by intros [= <- <-].
Qed.

(** A successful loop stores once per signal, in order. *)
Lemma register_signals_trace signals act w act' w' :
  register signals act w = Returns (act', w') →
  trace w' = trace w ++ map EvRegistryWrite signals.
Proof.
  revert act w. induction signals as [|s rest IH]; intros act w.
  - intros [= <- <-]. by rewrite app_nil_r.
  - cbn [register_signals].
    destruct (sigaction _ _ _ _) as [[prev s']|]; [|done].
    intros Hrest. apply IH in Hrest. rewrite Hrest.
    cbn [set_previous set_os trace map]. by rewrite <- app_assoc.
Qed.

(** A successful loop leaves the signals it does not visit alone. *)
Lemma register_signals_other signals act w act' w' sig :
  register signals act w = Returns (act', w') →
  sig ∉ signals →
  os_sigtable (os w') !! sig = os_sigtable (os w) !! sig
  ∧ g_previous_sigaction w' !! sig = g_previous_sigaction w !! sig.
Proof.
  revert act w. induction signals as [|s rest IH]; intros act w.
  - by intros [= <- <-].
  - cbn [register_signals].
    destruct (sigaction _ _ _ _) as [[prev s']|] eqn:Hsa; [|done].
    intros Hrest Hnotin. apply not_elem_of_cons in Hnotin as [Hne Hnotin].
    destruct (IH _ _ Hrest Hnotin) as [-> ->].
    apply sigaction_Some in Hsa as (_ & _ & _ & Htbl & _).
    cbn [set_previous set_os os g_previous_sigaction].
    by rewrite Htbl, !lookup_insert_ne.
Qed.

Lemma register_signals_sigmask signals act w act' w' :
  register signals act w = Returns (act', w') →
  os_sigmask (os w') = os_sigmask (os w).
Proof.
  revert act w. induction signals as [|s rest IH]; intros act w.
  - by intros [= <- <-].
  - cbn [register_signals].
    destruct (sigaction _ _ _ _) as [[prev s']|] eqn:Hsa; [|done].
    intros Hrest. rewrite (IH _ _ Hrest). cbn [set_previous set_os os].
    by apply sigaction_Some in Hsa as (_ & _ & _ & _ & ->).
Qed.

(** After a successful loop every visited signal has the handler and the
    flags of the action that was being registered. *)
Lemma register_signals_installed signals act w act' w' sig :
  register signals act w = Returns (act', w') →
  sig ∈ signals →
  sa_handler (disposition (os w') sig) = sa_handler act
  ∧ sa_flags (disposition (os w') sig) = sa_flags act.
Proof.
  revert act w. induction signals as [|s rest IH]; intros act w.
  - intros _ Hin. by apply not_elem_of_nil in Hin.
  - cbn [register_signals].
    destruct (sigaction _ _ _ _) as [[prev s']|] eqn:Hsa; [|done].
    intros Hrest Hin.
    destruct (decide (sig ∈ rest)) as [Hin'|Hnotin].
    + by destruct (IH _ _ Hrest Hin') as [-> ->].
    + apply elem_of_cons in Hin as [->|?]; [|done].
      destruct (register_signals_other _ _ _ _ _ s Hrest Hnotin) as [Htbl _].
      apply sigaction_Some in Hsa as (_ & _ & _ & Hs' & _).
      unfold disposition. rewrite Htbl. cbn [set_previous set_os os].
      by rewrite Hs', lookup_insert_eq.
Qed.

(** With no signal visited twice, a successful loop saves for every
    visited signal the disposition that was live when the loop began. *)
Lemma register_signals_saved signals act w act' w' sig :
  NoDup signals →
  register signals act w = Returns (act', w') →
  sig ∈ signals →
  entry (g_previous_sigaction w') sig = disposition (os w) sig.
Proof.
  revert act w. induction signals as [|s rest IH]; intros act w Hnd.
  - intros _ Hin. by apply not_elem_of_nil in Hin.
  - apply NoDup_cons in Hnd as [Hs Hnd]. cbn [register_signals].
    destruct (sigaction _ _ _ _) as [[prev s']|] eqn:Hsa; [|done].
    intros Hrest Hin.
    apply sigaction_Some in Hsa as (_ & _ & -> & Hs' & _).
    apply elem_of_cons in Hin as [->|Hin].
    + destruct (register_signals_other _ _ _ _ _ s Hrest Hs) as [_ Hreg].
      unfold entry. rewrite Hreg. cbn [set_previous g_previous_sigaction].
      by rewrite lookup_insert_eq.
    + rewrite (IH _ _ Hnd Hrest Hin). unfold disposition.
      cbn [set_previous set_os os]. rewrite Hs'.
      rewrite lookup_insert_ne; [done|]. by intros ->.
Qed.

(** A loop that meets a signal whose registration fails ends in abort. *)
Lemma register_signals_aborts signals act w sig :
  sig ∈ signals →
  (∀ a s, sigaction refused sig a s = None) →
  ∃ w', register signals act w = Aborts w'.
Proof.
  revert act w. induction signals as [|s rest IH]; intros act w Hin Hfail.
  - by apply not_elem_of_nil in Hin.
  - cbn [register_signals].
    destruct (sigaction _ _ _ _) as [[prev s']|] eqn:Hsa; [|by eexists].
    apply elem_of_cons in Hin as [->|Hin]; [by rewrite Hfail in Hsa|].
    by apply IH.
Qed.

(** A successful loop only visits signals whose disposition can be set. *)
Lemma register_signals_catchable signals act w act' w' sig :
  register signals act w = Returns (act', w') →
  sig ∈ signals → catchable sig = true.
Proof.
  revert act w. induction signals as [|s rest IH]; intros act w.
  - intros _ Hin. by apply not_elem_of_nil in Hin.
  - cbn [register_signals].
    destruct (sigaction _ _ _ _) as [[prev s']|] eqn:Hsa; [|done].
    intros Hrest Hin. apply sigaction_Some in Hsa as (Hc & _).
    apply elem_of_cons in Hin as [->|Hin]; [done|]. by apply (IH _ _ Hrest).
Qed.

Lemma elem_of_sigdelset x set sig :
  x ∈ sigdelset set sig ↔ x ∈ set ∧ (x = sig → valid_signal sig = false).
Proof.
  unfold sigdelset. destruct (valid_signal sig).
  - rewrite elem_of_difference, elem_of_singleton. split.
    + intros [Hx Hne]. split; [done|]. by intros ->.
    + intros [Hx Hne]. split; [done|]. intros ->. by discriminate Hne.
  - split; [by intros Hx|by intros [Hx _]].
Qed.

Lemma elem_of_foldl_sigdelset x signals set :
  x ∈ foldl sigdelset set signals
  ↔ x ∈ set ∧ (x ∈ signals → valid_signal x = false).
Proof.
  revert set. induction signals as [|s rest IH]; intros set; cbn [foldl].
  - split; [|by intros [Hx _]]. intros Hx. split; [done|].
    intros Hin. by apply not_elem_of_nil in Hin.
  - rewrite IH, elem_of_sigdelset. split.
    + intros [[Hx Hs] Hrest]. split; [done|].
      intros Hin. apply elem_of_cons in Hin as [->|Hin]; [by apply Hs|].
      by apply Hrest.
    + intros [Hx Hall]. split; [split; [done|]|].
      * intros ->. apply Hall, elem_of_cons. by left.
      * intros Hin. apply Hall, elem_of_cons. by right.
Qed.

(** The mask each signal is registered with: what the action held when
    its turn came, that is the initial mask without the signals visited
    up to and including itself. *)
Lemma register_signals_mask signals act w act' w' k sig :
  NoDup signals →
  register signals act w = Returns (act', w') →
  signals !! k = Some sig →
  sa_mask (disposition (os w') sig)
  = foldl sigdelset (sa_mask act) (take (S k) signals).
Proof.
  revert act w k. induction signals as [|s rest IH]; intros act w k Hnd.
  - by intros _ ?.
  - apply NoDup_cons in Hnd as [Hs Hnd]. cbn [register_signals].
    destruct (sigaction _ _ _ _) as [[prev s']|] eqn:Hsa; [|done].
    intros Hrest Hk. apply sigaction_Some in Hsa as (_ & _ & _ & Hs' & _).
    destruct k as [|k]; cbn in Hk.
    + injection Hk as ->.
      destruct (register_signals_other _ _ _ _ _ sig Hrest Hs) as [Htbl _].
      unfold disposition. rewrite Htbl. cbn [set_previous set_os os].
      by rewrite Hs', lookup_insert_eq.
    + by rewrite (IH _ _ _ Hnd Hrest Hk).
Qed.

Lemma register_signal_handlers_aborts w :
  (refused SysSigprocmask = true
   ∨ ∃ sig, sig ∈ catalog ∧ ∀ a s, sigaction refused sig a s = None) →
  ∃ w', _register_signal_handlers refused w = Aborts w'.
Proof.
  intros Hfail. rewrite register_signal_handlers_eq.
  destruct Hfail as [->|(sig & Hin & Hsig)]; [by eexists|].
  destruct (refused SysSigprocmask); [by eexists|].
  destruct (register_signals_aborts catalog
    (initial_action (os_sigmask (os w))) w sig Hin Hsig) as [w' ->].
  by eexists.
Qed.

Lemma register_signal_handlers_returns w w' :
  _register_signal_handlers refused w = Returns w' →
  refused SysSigprocmask = false
  ∧ ∃ act', register catalog (initial_action (os_sigmask (os w))) w
            = Returns (act', w').
Proof.
  rewrite register_signal_handlers_eq.
  destruct (refused SysSigprocmask); [done|].
  destruct (register catalog _ w) as [[act' w'']|w'']; [|done].
  intros [= <-]. eauto.
Qed.

(** What initialisation gives each signal of the catalog as its mask: the
    caller's mask without the signals of the catalog up to and including
    this one.  The signals outside the catalog keep the caller's masking;
    the signals of the catalog that come later keep it too. *)
Lemma registered_mask w w' k sig x :
  NoDup catalog →
  _register_signal_handlers refused w = Returns w' →
  catalog !! k = Some sig →
  x ∈ sa_mask (disposition (os w') sig)
  ↔ x ∈ os_sigmask (os w) ∧ x ∉ take (S k) catalog.
Proof.
  intros Hnd Hret Hk.
  apply register_signal_handlers_returns in Hret as (_ & act' & Hreg).
  rewrite (register_signals_mask _ _ _ _ _ _ _ Hnd Hreg Hk).
  rewrite elem_of_foldl_sigdelset. cbn [initial_action sa_mask].
  split; intros [Hx Hrest]; (split; [done|]); intros Hin.
  - assert (x ∈ catalog) as Hcat.
    { apply elem_of_take in Hin as (i & Hi & _).
      by apply list_elem_of_lookup_2 in Hi. }
    apply (register_signals_catchable _ _ _ _ _ _ Hreg) in Hcat.
    apply catchable_valid in Hcat. specialize (Hrest Hin). congruence.
  - by destruct Hrest.
Qed.

(** In particular the handler of a catalog signal never runs with its
    own signal blocked by its registration: together with SA_NODEFER this
    is why the signal being handled can be raised again at once. *)
Lemma registered_mask_leaves_own_signal w w' sig :
  NoDup catalog →
  _register_signal_handlers refused w = Returns w' →
  sig ∈ catalog →
  sig ∉ sa_mask (disposition (os w') sig).
Proof.
  intros Hnd Hret Hin Hmask.
  apply list_elem_of_lookup_1 in Hin as [k Hk].
  apply (registered_mask w w' k sig sig Hnd Hret Hk) in Hmask as [_ Hnot].
  apply Hnot. apply elem_of_take. exists k. split; [done|lia].
Qed.

(** C8. When the mask query fails, or the registration fails for some
    signal of the catalog, the installer ends in abort; and whenever it
    does return, the handler is installed, with its three flags, for
    every signal of the catalog. *)
Theorem failed_installation_aborts w :
  ((refused SysSigprocmask = true
    ∨ ∃ sig, sig ∈ catalog ∧ ∀ a s, sigaction refused sig a s = None) →
   ∃ w', _register_signal_handlers refused w = Aborts w')
  ∧ (∀ w', _register_signal_handlers refused w = Returns w' →
     ∀ sig, sig ∈ catalog →
       sa_handler (disposition (os w') sig) = host_signal_handler_addr
       ∧ sa_flags (disposition (os w') sig)
         = Z.lor (Z.lor SA_SIGINFO SA_NODEFER) SA_RESTART).
Proof.
  split; [apply register_signal_handlers_aborts|].
  intros w' Hret sig Hin.
  apply register_signal_handlers_returns in Hret as (_ & act' & Hreg).
  apply (register_signals_installed _ _ _ _ _ sig Hreg Hin).
Qed.

End Installer.

(** * The registry over the life of the process *)

Section Lifetime.

Context `{Platform}.
Variable code : Z → call → os_state → os_state.

(** A delivery that finds the default disposition saved enters no
    handler, whatever the runtime answers. *)
Lemma default_delivery_enters_no_handler rt sig_num sig_info sig_data w :
  sa_handler (entry (g_previous_sigaction w) sig_num) = SIG_DFL →
  catchable sig_num = true →
  ∃ evs,
    trace (_host_signal_handler code rt sig_num sig_info sig_data w)
    = trace w ++ evs
    ∧ Forall (λ e, ¬ enters_handler e) evs.
Proof.
  intros Hdfl Hc.
  destruct (decide (rt (host_context_of sig_num sig_info sig_data)
                    = OE_EXCEPTION_CONTINUE_EXECUTION)) as [Hact|Hact].
  { rewrite handler_continue by done. eexists. split; [done|].
    apply Forall_singleton. by intros []. }
  rewrite handler_default by done. cbn zeta.
  destruct (bypass_optional_signal sig_num optional_signals).
  { eexists. split; [done|]. apply Forall_singleton. by intros []. }
  rewrite reraise_default by done. cbn [log set_os os trace].
  rewrite <- app_assoc. eexists. split; [done|].
  apply Forall_cons_2; [by intros []|]. apply Forall_singleton.
  destruct (bool_decide _); by intros [].
Qed.

(** C2 (as amended). After a chained delivery through a saved disposition
    with SA_RESETHAND, the handler saved in the registry for that signal
    is the default one; the live dispositions are as the previous handler
    left them, the chaining code does not reset them; and a later delivery
    of the same signal enters no handler. *)
Theorem one_shot_resets_saved_handler rt sig_num sig_info sig_data w :
  not_handled rt sig_num sig_info sig_data →
  sa_handler (entry (g_previous_sigaction w) sig_num) ≠ SIG_DFL →
  has_flag (sa_flags (entry (g_previous_sigaction w) sig_num))
    (to_int SA_RESETHAND) = true →
  catchable sig_num = true →
  let prev := entry (g_previous_sigaction w) sig_num in
  let w' := _host_signal_handler code rt sig_num sig_info sig_data w in
  sa_handler (entry (g_previous_sigaction w') sig_num) = SIG_DFL
  ∧ os_sigtable (os w')
    = os_sigtable (code (sa_handler prev)
                     (chained_call prev sig_num sig_info sig_data)
                     (chained_entry_state prev sig_num (os w)))
  ∧ ∀ rt2 sig_info2 sig_data2 w2,
      g_previous_sigaction w2 = g_previous_sigaction w' →
      ∃ evs,
        trace (_host_signal_handler code rt2 sig_num sig_info2 sig_data2 w2)
        = trace w2 ++ evs
        ∧ Forall (λ e, ¬ enters_handler e) evs.
Proof.
  intros Hact Hdfl Hreset Hc prev w'.
  assert (sa_handler (entry (g_previous_sigaction w') sig_num) = SIG_DFL)
    as Hsaved.
  { subst w'. rewrite chained_delivery_entry by done. cbn [sa_handler].
    by rewrite Hreset. }
  split; [done|]. split.
  - subst w' prev. by rewrite handler_chain, chain_previous_eq.
  - intros rt2 sig_info2 sig_data2 w2 Hreg.
    apply default_delivery_enters_no_handler; [|done]. by rewrite Hreg.
Qed.

(** C3 (as amended). The installer stores into the registry once for
    each signal of the catalog, and nowhere else: each entry receives the
    disposition that was live before.  A later delivery leaves the
    entries of all other signals alone, and the entry of its own signal
    too unless it chains; when it chains it stores the saved mask with
    the signal added (unless SA_NODEFER is saved) and, with SA_RESETHAND
    saved, the default handler; the saved flags never change. *)
Theorem registry_writes refused rt w0 w1 :
  NoDup catalog →
  _register_signal_handlers refused w0 = Returns w1 →
  (trace w1 = trace w0 ++ map EvRegistryWrite catalog
   ∧ (∀ sig, sig ∈ catalog →
        entry (g_previous_sigaction w1) sig = disposition (os w0) sig)
   ∧ (∀ sig, sig ∉ catalog →
        g_previous_sigaction w1 !! sig = g_previous_sigaction w0 !! sig))
  ∧ ∀ sig_num sig_info sig_data w,
      let prev := entry (g_previous_sigaction w) sig_num in
      let w' := _host_signal_handler code rt sig_num sig_info sig_data w in
      (∀ s, s ≠ sig_num →
         g_previous_sigaction w' !! s = g_previous_sigaction w !! s)
      ∧ (rt (host_context_of sig_num sig_info sig_data)
         = OE_EXCEPTION_CONTINUE_EXECUTION
         ∨ sa_handler prev = SIG_DFL →
         g_previous_sigaction w' = g_previous_sigaction w)
      ∧ (not_handled rt sig_num sig_info sig_data →
         sa_handler prev ≠ SIG_DFL →
         entry (g_previous_sigaction w') sig_num
         = {| sa_handler := if has_flag (sa_flags prev) (to_int SA_RESETHAND)
                            then SIG_DFL else sa_handler prev;
              sa_mask := chained_mask prev sig_num;
              sa_flags := sa_flags prev |}).
Proof.
  intros Hnd Hret.
  apply register_signal_handlers_returns in Hret as (_ & act' & Hreg).
  split.
  - split; [by apply (register_signals_trace _ _ _ _ _ _ Hreg)|]. split.
    + intros sig Hin. by apply (register_signals_saved _ _ _ _ _ _ _ Hnd Hreg).
    + intros sig Hnotin.
      by destruct (register_signals_other _ _ _ _ _ _ sig Hreg Hnotin).
  - intros sig_num sig_info sig_data w prev w'. subst prev w'. split.
    + intros s Hs. by apply delivery_keeps_other_entries.
    + split; [apply delivery_without_chain_keeps_registry|].
      intros Hact Hdfl. by apply chained_delivery_entry.
Qed.

End Lifetime.

(** * Runs on x86-64 Linux *)

Section Linux.

#[local] Existing Instance linux_x86_64.

Local Abbreviation deliver rt :=
  (_host_signal_handler returning_handler rt).

(** Closed facts about the sample processes are settled by running the
    definitions. *)
Local Ltac run := vm_compute; first [reflexivity | exact I | discriminate].
Local Ltac decided :=
  match goal with |- ?P => apply (bool_decide_unpack P); run end.
Local Ltac conjuncts := repeat match goal with |- _ ∧ _ => split end.

Lemma linux_catalog_NoDup : NoDup catalog.
Proof. decided. Defined.

(** C4. The caller has SIGUSR2 blocked when it initialises.  The
    caller's mask without the signals of the catalog is empty, yet after
    the installer has returned the handler registered for SIGBUS has
    SIGUSR2, a signal of the catalog, in its mask: the action was
    registered for SIGBUS before the later signals were taken out of its
    mask.  The last signal of the catalog, SIGUSR2, does get the mask
    without all of them. *)
Theorem early_registration_keeps_later_signals_masked :
  let w := process ∅ {[SIGUSR2]} in
  oe_initialize_host_exception nothing_refused w = Returns (installed w)
  ∧ SIGBUS ∈ catalog
  ∧ SIGUSR2 ∈ catalog
  ∧ sa_handler (disposition (os (installed w)) SIGBUS)
    = host_signal_handler_addr
  ∧ os_sigmask (os w) ∖ (list_to_set catalog : gset Z) = ∅
  ∧ sa_mask (disposition (os (installed w)) SIGBUS) = {[SIGUSR2]}
  ∧ sa_mask (disposition (os (installed w)) SIGUSR2) = ∅.
Proof. cbv zeta. conjuncts; first [decided | run]. Qed.

(** C2, counterexample. SIGUSR1 had a one-shot handler before
    initialisation.  After one chained delivery the live disposition of
    SIGUSR1 is still the multiplexing handler, not the default action. *)
Lemma one_shot_keeps_live_disposition :
  let w := installed (process (sigusr1_handler one_shot_flags) ∅) in
  let w' := deliver runtime_declines SIGUSR1 sample_info sample_context w in
  sa_handler (entry (g_previous_sigaction w) SIGUSR1) = 0x5000
  ∧ has_flag (sa_flags (entry (g_previous_sigaction w) SIGUSR1))
      (to_int SA_RESETHAND) = true
  ∧ runtime_declines (host_context_of SIGUSR1 sample_info sample_context)
    ≠ OE_EXCEPTION_CONTINUE_EXECUTION
  ∧ sa_handler (disposition (os w') SIGUSR1) = host_signal_handler_addr
  ∧ host_signal_handler_addr ≠ SIG_DFL.
Proof. cbv zeta. conjuncts; run. Qed.

(** C3, counterexample. In the same run the registry entry of SIGUSR1 is
    changed by the delivery: the saved handler goes from 0x5000 to
    SIG_DFL and the saved mask gains SIGUSR1. *)
Lemma chained_delivery_rewrites_entry :
  let w := installed (process (sigusr1_handler one_shot_flags) ∅) in
  let w' := deliver runtime_declines SIGUSR1 sample_info sample_context w in
  entry (g_previous_sigaction w) SIGUSR1
  = {| sa_handler := 0x5000; sa_mask := ∅; sa_flags := one_shot_flags |}
  ∧ entry (g_previous_sigaction w') SIGUSR1
    = {| sa_handler := SIG_DFL; sa_mask := {[SIGUSR1]};
         sa_flags := one_shot_flags |}
  ∧ g_previous_sigaction w' ≠ g_previous_sigaction w.
Proof. cbv zeta. conjuncts; run. Qed.

(** C10, counterexample. SIGUSR1 was ignored, registered with SA_SIGINFO.
    The chaining code enters the address SIG_IGN in the extended form,
    not in the simple one. *)
Lemma ignored_with_siginfo_called_extended :
  let w := installed (process (sigusr1_ignored SA_SIGINFO) ∅) in
  let w' := deliver runtime_declines SIGUSR1 sample_info sample_context w in
  sa_handler (entry (g_previous_sigaction w) SIGUSR1) = SIG_IGN
  ∧ runtime_declines (host_context_of SIGUSR1 sample_info sample_context)
    ≠ OE_EXCEPTION_CONTINUE_EXECUTION
  ∧ trace w'
    = trace w
      ++ [EvSubmit (host_context_of SIGUSR1 sample_info sample_context);
          EvRegistryWrite SIGUSR1;
          EvCall SIG_IGN (CallSigaction SIGUSR1 sample_info sample_context)
            {[SIGUSR1]}].
Proof. cbv zeta. conjuncts; run. Qed.

(** A process that had nothing registered, after initialisation. *)
Local Abbreviation plain := (installed (process ∅ ∅)).

Lemma reported_signal_number_witness :
  NoDup catalog
  ∧ signal_number (host_context_of SIGBUS sample_info sample_context) = 0
  ∧ signal_number (host_context_of SIGSEGV sample_info sample_context)
    = SIGSEGV
  ∧ signal_number (host_context_of SIGUSR1 sample_info sample_context)
    = SIGUSR1.
Proof.
  split; [exact linux_catalog_NoDup|]. conjuncts.
  - destruct (reported_signal_number returning_handler runtime_declines
      SIGBUS sample_info sample_context plain linux_catalog_NoDup)
      as (_ & Hzero & _); [split; run|]. apply Hzero; [decided|run].
  - destruct (reported_signal_number returning_handler runtime_declines
      SIGSEGV sample_info sample_context plain linux_catalog_NoDup)
      as (_ & _ & Htrue); [split; run|]. apply Htrue. by left.
  - destruct (reported_signal_number returning_handler runtime_declines
      SIGUSR1 sample_info sample_context plain linux_catalog_NoDup)
      as (_ & _ & Htrue); [split; run|]. apply Htrue. right. decided.
Defined.

Lemma continue_changes_nothing_witness :
  let w' := deliver runtime_resolves SIGSEGV sample_info sample_context plain in
  runtime_resolves (host_context_of SIGSEGV sample_info sample_context)
  = OE_EXCEPTION_CONTINUE_EXECUTION
  ∧ g_previous_sigaction w' = g_previous_sigaction plain
  ∧ os_sigtable (os w') = os_sigtable (os plain)
  ∧ os_sigmask (os w') = os_sigmask (os plain)
  ∧ trace w'
    = trace plain
      ++ [EvSubmit (host_context_of SIGSEGV sample_info sample_context)].
Proof.
  cbv zeta. split; [run|].
  apply (continue_changes_nothing returning_handler runtime_resolves
           SIGSEGV sample_info sample_context plain). run.
Defined.

Lemma optional_signal_swallowed_witness :
  let w' := deliver runtime_declines SIGUSR1 sample_info sample_context plain in
  sa_handler (entry (g_previous_sigaction plain) SIGUSR1) = SIG_DFL
  ∧ SIGUSR1 ∈ optional_signals
  ∧ g_previous_sigaction w' = g_previous_sigaction plain
  ∧ os_sigtable (os w') = os_sigtable (os plain)
  ∧ os_sigmask (os w') = os_sigmask (os plain)
  ∧ trace w'
    = trace plain
      ++ [EvSubmit (host_context_of SIGUSR1 sample_info sample_context)].
Proof.
  cbv zeta. split; [run|]. split; [decided|].
  apply (optional_signal_swallowed returning_handler runtime_declines
           SIGUSR1 sample_info sample_context plain);
    first [decided | run].
Defined.

Lemma default_action_reraised_witness :
  let w' := deliver runtime_declines SIGSEGV sample_info sample_context plain in
  sa_handler (entry (g_previous_sigaction plain) SIGSEGV) = SIG_DFL
  ∧ SIGSEGV ∈ default_signals
  ∧ catchable SIGSEGV = true
  ∧ (SIGSEGV ∉ os_sigmask (os plain))
  ∧ sa_handler (disposition (os plain) SIGSEGV) = host_signal_handler_addr
  ∧ sa_handler (disposition (os w') SIGSEGV) = SIG_DFL
  ∧ trace w'
    = trace plain
      ++ [EvSubmit (host_context_of SIGSEGV sample_info sample_context);
          EvDefaultAction SIGSEGV].
Proof.
  cbv zeta.
  assert (SIGSEGV ∈ default_signals) as Hin by decided.
  assert (SIGSEGV ∉ os_sigmask (os plain)) as Hmask by decided.
  split; [run|]. split; [exact Hin|]. split; [run|]. split; [exact Hmask|].
  split; [run|].
  destruct (default_action_reraised returning_handler runtime_declines
    SIGSEGV sample_info sample_context plain linux_catalog_NoDup)
    as (Hdfl & _ & _ & _ & Htrace);
    [run | run | left; exact Hin | run | exact Hmask |].
  split; [exact Hdfl|exact Htrace].
Defined.

Lemma chain_restores_mask_witness :
  let w := installed (process (sigusr1_handler 0) {[SIGALRM]}) in
  let x := installed (process (sigusr1_handler SA_SIGINFO) {[SIGALRM]}) in
  let w' := _host_signal_handler blocking_handler runtime_declines
              SIGUSR1 sample_info sample_context w in
  let x' := _host_signal_handler blocking_handler runtime_declines
              SIGUSR1 sample_info sample_context x in
  (EvCall 0x5000 (CallHandler SIGUSR1) {[SIGUSR1]} ∈ trace w'
   ∧ os_sigmask (os w') = {[SIGALRM]})
  ∧ (EvCall 0x5000 (CallSigaction SIGUSR1 sample_info sample_context)
       {[SIGUSR1]} ∈ trace x'
     ∧ os_sigmask (os x') = {[SIGALRM]}).
Proof.
  cbv zeta. split.
  - destruct (chain_restores_mask blocking_handler runtime_declines
      SIGUSR1 sample_info sample_context
      (installed (process (sigusr1_handler 0) {[SIGALRM]})))
      as (Hmask & _ & Hcall); [run|run|].
    split; [exact Hcall|]. rewrite Hmask. run.
  - destruct (chain_restores_mask blocking_handler runtime_declines
      SIGUSR1 sample_info sample_context
      (installed (process (sigusr1_handler SA_SIGINFO) {[SIGALRM]})))
      as (Hmask & _ & Hcall); [run|run|].
    split; [exact Hcall|]. rewrite Hmask. run.
Defined.

Lemma ignored_disposition_is_called_witness :
  let w := installed (process (sigusr1_ignored 0) ∅) in
  let w' := deliver runtime_declines SIGUSR1 sample_info sample_context w in
  SIG_IGN ≠ SIG_DFL
  ∧ sa_handler (entry (g_previous_sigaction w) SIGUSR1) = SIG_IGN
  ∧ EvCall SIG_IGN (CallHandler SIGUSR1) {[SIGUSR1]} ∈ trace w'.
Proof.
  cbv zeta. split; [run|]. split; [run|].
  destruct (ignored_disposition_is_called returning_handler runtime_declines
    SIGUSR1 sample_info sample_context
    (installed (process (sigusr1_ignored 0) ∅)))
    as (_ & Hsimple & _); [run|run|run|].
  apply Hsimple. run.
Defined.

Lemma failed_installation_aborts_witness :
  sigusr2_refused (SysSigaction SIGUSR2) = true
  ∧ SIGUSR2 ∈ catalog
  ∧ ∃ w', _register_signal_handlers sigusr2_refused (process ∅ ∅) = Aborts w'.
Proof.
  split; [run|]. assert (SIGUSR2 ∈ catalog) as Hin by decided.
  split; [exact Hin|].
  apply (failed_installation_aborts sigusr2_refused (process ∅ ∅)).
  right. exists SIGUSR2. split; [exact Hin|]. intros a s. run.
Defined.

Lemma one_shot_resets_saved_handler_witness :
  let w := installed (process (sigusr1_handler one_shot_flags) ∅) in
  let w' := deliver runtime_declines SIGUSR1 sample_info sample_context w in
  sa_handler (entry (g_previous_sigaction w) SIGUSR1) = 0x5000
  ∧ has_flag (sa_flags (entry (g_previous_sigaction w) SIGUSR1))
      (to_int SA_RESETHAND) = true
  ∧ catchable SIGUSR1 = true
  ∧ sa_handler (entry (g_previous_sigaction w') SIGUSR1) = SIG_DFL
  ∧ ∃ evs,
      trace (deliver runtime_declines SIGUSR1 sample_info sample_context w')
      = trace w' ++ evs
      ∧ Forall (λ e, ¬ enters_handler e) evs.
Proof.
  cbv zeta. split; [run|]. split; [run|]. split; [run|].
  destruct (one_shot_resets_saved_handler returning_handler runtime_declines
    SIGUSR1 sample_info sample_context
    (installed (process (sigusr1_handler one_shot_flags) ∅)))
    as (Hsaved & _ & Hlater); [run|run|run|run|].
  split; [exact Hsaved|]. by apply Hlater.
Defined.

Lemma registry_writes_witness :
  let w0 := process (sigusr1_handler 0) ∅ in
  NoDup catalog
  ∧ _register_signal_handlers nothing_refused w0 = Returns (installed w0)
  ∧ trace (installed w0) = map EvRegistryWrite catalog
  ∧ entry (g_previous_sigaction (installed w0)) SIGUSR1
    = {| sa_handler := 0x5000; sa_mask := ∅; sa_flags := 0 |}.
Proof.
  cbv zeta. split; [exact linux_catalog_NoDup|].
  assert (_register_signal_handlers nothing_refused
            (process (sigusr1_handler 0) ∅)
          = Returns (installed (process (sigusr1_handler 0) ∅))) as Hret by run.
  split; [exact Hret|].
  destruct (registry_writes returning_handler nothing_refused runtime_declines
    _ _ linux_catalog_NoDup Hret) as ((Htrace & Hsaved & _) & _).
  split; [exact Htrace|]. rewrite Hsaved; [run|decided].
Defined.

End Linux.

(** * Further properties of a delivery *)

Section Delivery.

Context `{Platform}.
Variable code : Z → call → os_state → os_state.
Variable rt : oe_host_exception_context_t → Z.

Local Abbreviation handler := (_host_signal_handler code rt).



(** X1. For a positive signal number the runtime is handed 0 exactly when
    the signal is a default signal other than SIGSEGV: a 0 never stands
    for any other signal. *)
Theorem zero_reported_iff_hidden sig_num sig_info sig_data :
  0 < sig_num < 2 ^ 31 →
  signal_number (host_context_of sig_num sig_info sig_data) = 0
  ↔ sig_num ∈ default_signals ∧ sig_num ≠ SIGSEGV.
Proof.
  intros Hrange. cbn [host_context_of signal_number]. split.
  - intros Hzero.
    destruct (decide (sig_num = SIGSEGV)) as [->|Hne].
    { rewrite hide_default_signal_segv, to_uint64_small in Hzero; lia. }
    destruct (decide (sig_num ∈ default_signals)) as [Hin|Hnotin]; [done|].
    rewrite hide_default_signal_notin, to_uint64_small in Hzero; [lia..|done].
  - intros [Hin Hne]. by apply hide_default_signal_in.
Qed.


Lemma raise_os sig w : os (raise sig w) = os w.
Proof. unfold raise. by repeat case_match. Qed.

(** What [raise] adds to the trace: at most one event, which is neither
    a call of the runtime nor a call made by the chaining code. *)
Lemma raise_events sig w :
  ∃ evs, trace (raise sig w) = trace w ++ evs
         ∧ List.filter is_submit evs = []
         ∧ List.filter is_call evs = [].
Proof.
  unfold raise. destruct (valid_signal sig).
  - repeat case_match; cbn [log trace]; by eexists.
  - exists []. by rewrite app_nil_r.
Qed.

(** X3. A delivery leaves the thread's signal mask as it found it, in
    every branch: whatever the verdict, the saved disposition and the
    previous handler. *)
Theorem delivery_keeps_signal_mask sig_num sig_info sig_data w :
  os_sigmask (os (_host_signal_handler code rt sig_num sig_info sig_data w))
  = os_sigmask (os w).
Proof.
  destruct (decide (rt (host_context_of sig_num sig_info sig_data)
                    = OE_EXCEPTION_CONTINUE_EXECUTION)) as [Hact|Hact].
  { by rewrite handler_continue. }
  destruct (decide (sa_handler (entry (g_previous_sigaction w) sig_num)
                    = SIG_DFL)) as [Hdfl|Hdfl].
  - rewrite handler_default by done. cbn zeta.
    destruct (bypass_optional_signal sig_num optional_signals); [done|].
    rewrite raise_os. cbn [set_os log os]. apply signal_sigmask.
  - by rewrite handler_chain, chain_previous_eq.
Qed.


(** X5. A delivery calls a previous handler once when it reaches the
    chaining branch, and not at all otherwise. *)
Theorem one_chained_call_per_delivery sig_num sig_info sig_data w :
  ∃ evs,
    trace (handler sig_num sig_info sig_data w) = trace w ++ evs
    ∧ length (List.filter is_call evs)
      = if chains rt sig_num sig_info sig_data w then 1%nat else 0%nat.
Proof.
  unfold chains.
  destruct (decide (rt (host_context_of sig_num sig_info sig_data)
                    = OE_EXCEPTION_CONTINUE_EXECUTION)) as [Hact|Hact].
  { rewrite handler_continue by done. rewrite Hact, Z.eqb_refl.
    by eexists. }
  apply Z.eqb_neq in Hact as Hact'. rewrite Hact'. cbn [negb andb].
  destruct (decide (sa_handler (entry (g_previous_sigaction w) sig_num)
                    = SIG_DFL)) as [Hdfl|Hdfl].
  - rewrite handler_default by done. rewrite Hdfl, Z.eqb_refl. cbn zeta.
    destruct (bypass_optional_signal sig_num optional_signals);
      [by eexists|].
    destruct (raise_events sig_num
      (set_os (signal sig_num SIG_DFL
                 (os (log (EvSubmit (host_context_of sig_num sig_info
                                       sig_data)) w)))
         (log (EvSubmit (host_context_of sig_num sig_info sig_data)) w)))
      as (evs & -> & _ & Hcall).
    cbn [set_os log trace]. rewrite <- app_assoc. eexists. split; [done|].
    cbn [app List.filter is_call]. by rewrite Hcall.
  - rewrite handler_chain, chain_previous_eq by done.
    apply Z.eqb_neq in Hdfl as ->.
    cbn [trace log g_previous_sigaction negb]. rewrite <- app_assoc.
    eexists. split; [done|]. by repeat case_match.
Qed.

End Delivery.

(** * Further properties of the chaining branch *)

Section Chaining.

Context `{Platform}.
Variable code : Z → call → os_state → os_state.

Lemma sigaddset_idemp set sig :
  sigaddset (sigaddset set sig) sig = sigaddset set sig.
Proof.
  unfold sigaddset. destruct (valid_signal sig); [|done].
  apply set_eq. intros x. rewrite !elem_of_union. tauto.
Qed.

Lemma elem_of_sigaddset x set sig :
  x ∈ sigaddset set sig → x = sig ∨ x ∈ set.
Proof.
  unfold sigaddset. destruct (valid_signal sig); [|by right].
  rewrite elem_of_union, elem_of_singleton. tauto.
Qed.

(** X6. Apart from what the previous handler itself does, a delivery
    never touches the live disposition of a signal other than the one
    delivered. *)
Theorem delivery_keeps_other_dispositions rt sig_num sig_info sig_data w s :
  s ≠ sig_num →
  (∀ addr c st, os_sigtable (code addr c st) !! s = os_sigtable st !! s) →
  os_sigtable (os (_host_signal_handler code rt sig_num sig_info sig_data w))
    !! s
  = os_sigtable (os w) !! s.
Proof.
  intros Hs Hcode.
  destruct (decide (rt (host_context_of sig_num sig_info sig_data)
                    = OE_EXCEPTION_CONTINUE_EXECUTION)) as [Hact|Hact].
  { by rewrite handler_continue. }
  destruct (decide (sa_handler (entry (g_previous_sigaction w) sig_num)
                    = SIG_DFL)) as [Hdfl|Hdfl].
  - rewrite handler_default by done. cbn zeta.
    destruct (bypass_optional_signal sig_num optional_signals); [done|].
    rewrite raise_os. cbn [set_os log os]. by apply signal_other.
  - rewrite handler_chain, chain_previous_eq by done.
    cbn [os os_sigtable log g_previous_sigaction]. by rewrite Hcode.
Qed.

(** X7. The previous handler runs under its saved mask alone, not under
    the union with the mask in force at delivery: a signal that was
    blocked when the signal arrived, and that the saved mask does not
    hold, is unblocked while the previous handler runs. *)
Theorem chained_handler_unblocks_current_mask rt sig_num sig_info sig_data w x :
  not_handled rt sig_num sig_info sig_data →
  sa_handler (entry (g_previous_sigaction w) sig_num) ≠ SIG_DFL →
  x ∈ os_sigmask (os w) →
  x ∉ sa_mask (entry (g_previous_sigaction w) sig_num) →
  x ≠ sig_num →
  let prev := entry (g_previous_sigaction w) sig_num in
  ∃ mask,
    EvCall (sa_handler prev) (chained_call prev sig_num sig_info sig_data)
      mask
    ∈ trace (_host_signal_handler code rt sig_num sig_info sig_data w)
    ∧ (x ∉ mask)
    ∧ os_sigmask (chained_entry_state prev sig_num (os w)) = mask.
Proof.
  intros Hact Hdfl Hblocked Hsaved Hx prev.
  exists (chained_mask prev sig_num). split; [|split; [|done]].
  - by apply chain_enters_previous.
  - unfold chained_mask. destruct (has_flag _ _); [done|].
    intros Hin. by apply elem_of_sigaddset in Hin as [?|?].
Qed.

(** X8. After one chained delivery the registry has settled for that
    signal: no later delivery of the same signal changes it, whatever the
    verdicts are. *)
Theorem registry_settles_after_chain rt sig_num sig_info sig_data w :
  not_handled rt sig_num sig_info sig_data →
  sa_handler (entry (g_previous_sigaction w) sig_num) ≠ SIG_DFL →
  ∀ rt2 sig_info2 sig_data2 w2,
    g_previous_sigaction w2
    = g_previous_sigaction
        (_host_signal_handler code rt sig_num sig_info sig_data w) →
    g_previous_sigaction
      (_host_signal_handler code rt2 sig_num sig_info2 sig_data2 w2)
    = g_previous_sigaction w2.
Proof.
  intros Hact Hdfl rt2 sig_info2 sig_data2 w2 Hreg.
  pose proof (chained_delivery_entry code rt sig_num sig_info sig_data w
                Hact Hdfl) as Hentry.
  cbn zeta in Hentry. rewrite <- Hreg in Hentry.
  destruct (decide (rt2 (host_context_of sig_num sig_info2 sig_data2)
                    = OE_EXCEPTION_CONTINUE_EXECUTION)) as [Hact2|Hact2].
  { apply delivery_without_chain_keeps_registry. by left. }
  destruct (decide (sa_handler (entry (g_previous_sigaction w2) sig_num)
                    = SIG_DFL)) as [Hdfl2|Hdfl2].
  { apply delivery_without_chain_keeps_registry. by right. }
  rewrite handler_chain, chain_previous_eq by done.
  cbn [log g_previous_sigaction].
  rewrite Hentry in Hdfl2 |- *. cbn [sa_handler sa_flags sa_mask] in *.
  destruct (has_flag (sa_flags (entry (g_previous_sigaction w) sig_num))
              (to_int SA_RESETHAND)) eqn:Hreset; [done|].
  destruct (has_flag (sa_flags (entry (g_previous_sigaction w) sig_num))
              SA_NODEFER) eqn:Hnodefer; [done|].
  apply insert_id.
  rewrite Hreg, handler_chain, chain_previous_eq by done.
  cbn [log g_previous_sigaction]. rewrite Hreset, Hnodefer.
  rewrite lookup_insert_eq. unfold chained_mask. cbn [sa_flags sa_mask].
  rewrite Hnodefer. by rewrite sigaddset_idemp.
Qed.

(** X9. What follows a one-shot handler.  Once a delivery has chained to
    a previous handler saved with SA_RESETHAND, a later unhandled
    delivery of the same signal is swallowed when the signal is optional
    and not SIGABRT, and is given the default action when it is a default
    signal or SIGABRT. *)
Theorem after_one_shot_default_policy rt sig_num sig_info sig_data w :
  not_handled rt sig_num sig_info sig_data →
  sa_handler (entry (g_previous_sigaction w) sig_num) ≠ SIG_DFL →
  has_flag (sa_flags (entry (g_previous_sigaction w) sig_num))
    (to_int SA_RESETHAND) = true →
  ∀ rt2 sig_info2 sig_data2 w2,
    g_previous_sigaction w2
    = g_previous_sigaction
        (_host_signal_handler code rt sig_num sig_info sig_data w) →
    not_handled rt2 sig_num sig_info2 sig_data2 →
    let w2' :=
      _host_signal_handler code rt2 sig_num sig_info2 sig_data2 w2 in
    let submit := EvSubmit (host_context_of sig_num sig_info2 sig_data2) in
    (sig_num ∈ optional_signals → sig_num ≠ SIGABRT →
     os w2' = os w2 ∧ trace w2' = trace w2 ++ [submit])
    ∧ (sig_num ∈ default_signals ∨ sig_num = SIGABRT →
       NoDup catalog → catchable sig_num = true →
       sig_num ∉ os_sigmask (os w2) →
       trace w2' = trace w2 ++ [submit; EvDefaultAction sig_num]).
Proof.
  intros Hact Hdfl Hreset rt2 sig_info2 sig_data2 w2 Hreg Hact2 w2' submit.
  subst w2' submit.
  assert (sa_handler (entry (g_previous_sigaction w2) sig_num) = SIG_DFL)
    as Hsaved.
  { rewrite Hreg, chained_delivery_entry by done. cbn [sa_handler].
    by rewrite Hreset. }
  rewrite handler_default by done. cbn zeta. split.
  - intros Hopt Habrt. by rewrite bypass_optional_signal_true.
  - intros Hsig Hnd Hc Hmask.
    assert (bypass_optional_signal sig_num optional_signals = false) as ->.
    { destruct Hsig as [Hdef| ->]; [|apply bypass_optional_signal_abrt].
      apply bypass_optional_signal_notin. by apply catalog_disjoint. }
    rewrite reraise_default by done. cbn [log set_os os trace].
    rewrite bool_decide_eq_false_2 by done. by rewrite <- app_assoc.
Qed.

End Chaining.

(** * Further properties of the installer *)

Section Initialisation.

Context `{Platform}.

Lemma valid_signal_bounds sig : valid_signal sig = true → 1 ≤ sig < _NSIG.
Proof.
  unfold valid_signal. intros Hv. apply andb_prop in Hv as [Hlo Hhi].
  split; [by apply bool_decide_eq_true in Hlo|].
  by apply bool_decide_eq_true in Hhi.
Qed.

(** Whatever its outcome, a loop has stored for a prefix of its signals,
    and only for numbers that index the array. *)
Lemma register_signals_prefix refused signals act w :
  ∃ n,
    trace (loop_world (register_signals refused signals act w))
    = trace w ++ map EvRegistryWrite (take n signals)
    ∧ Forall (λ s, 1 ≤ s < _NSIG) (take n signals).
Proof.
  revert act w. induction signals as [|s rest IH]; intros act w.
  - exists 0%nat. cbn. by rewrite app_nil_r.
  - cbn [register_signals].
    destruct (sigaction _ _ _ _) as [[prev s']|] eqn:Hsa.
    + apply sigaction_Some in Hsa as (Hc & _).
      destruct (IH {| sa_handler := sa_handler act;
                      sa_mask := sigdelset (sa_mask act) s;
                      sa_flags := sa_flags act |}
                   (set_previous s prev (set_os s' w))) as (n & -> & Hall).
      exists (S n). cbn [take map set_previous set_os trace].
      rewrite <- app_assoc. split; [done|].
      apply Forall_cons_2; [|done].
      by apply valid_signal_bounds, catchable_valid.
    + exists 0%nat. cbn. by rewrite app_nil_r.
Qed.

Lemma outcome_world_register refused w :
  outcome_world (_register_signal_handlers refused w)
  = if refused SysSigprocmask then w
    else loop_world (register_signals refused catalog
                       (initial_action (os_sigmask (os w))) w).
Proof.
  rewrite register_signal_handlers_eq.
  destruct (refused SysSigprocmask); [done|].
  by destruct (register_signals _ _ _ _) as [[act' w']|w'].
Qed.

(** X10. Whether it returns or aborts, the installer stores into the
    registry for a prefix of the catalog, in order, and every index it
    stores at lies within the array: a registration that fails for a
    number outside the array aborts before the store. *)
Theorem installer_stores_in_bounds refused w :
  let w' := outcome_world (_register_signal_handlers refused w) in
  ∃ n,
    trace w' = trace w ++ map EvRegistryWrite (take n catalog)
    ∧ Forall (λ s, 1 ≤ s < _NSIG) (take n catalog).
Proof.
  cbn zeta. rewrite outcome_world_register.
  destruct (refused SysSigprocmask); [|apply register_signals_prefix].
  exists 0%nat. cbn. by rewrite app_nil_r.
Qed.

(** X11. A successful initialisation leaves the caller's signal mask
    alone, and for every signal outside the catalog both the live
    disposition and the registry entry. *)
Theorem initialisation_frame refused w w' :
  _register_signal_handlers refused w = Returns w' →
  os_sigmask (os w') = os_sigmask (os w)
  ∧ ∀ sig, sig ∉ catalog →
      os_sigtable (os w') !! sig = os_sigtable (os w) !! sig
      ∧ g_previous_sigaction w' !! sig = g_previous_sigaction w !! sig.
Proof.
  intros Hret.
  apply register_signal_handlers_returns in Hret as (_ & act' & Hreg).
  split; [by apply (register_signals_sigmask _ _ _ _ _ _ Hreg)|].
  intros sig Hnotin. by apply (register_signals_other _ _ _ _ _ _ _ Hreg).
Qed.

(** A loop that aborts has installed the handler for the signals before
    the failing one and has touched nothing else. *)
Lemma register_signals_aborted refused signals act w w' :
  register_signals refused signals act w = Aborts w' →
  ∃ pre s post,
    signals = pre ++ s :: post
    ∧ catchable s && negb (refused (SysSigaction s)) = false
    ∧ trace w' = trace w ++ map EvRegistryWrite pre
    ∧ (∀ sig, sig ∈ pre →
         sa_handler (disposition (os w') sig) = sa_handler act)
    ∧ (∀ sig, sig ∉ pre →
         os_sigtable (os w') !! sig = os_sigtable (os w) !! sig).
Proof.
  revert act w. induction signals as [|s rest IH]; intros act w; [done|].
  cbn [register_signals].
  destruct (sigaction _ _ _ _) as [[prev s1]|] eqn:Hsa.
  - intros Hrest. apply sigaction_Some in Hsa as (_ & _ & _ & Hs1 & _).
    destruct (IH _ _ Hrest) as (pre & f & post & -> & Hf & Htr & Hin & Hout).
    exists (s :: pre), f, post. split; [done|]. split; [done|].
    cbn [set_previous set_os os trace] in *. split; [|split].
    + rewrite Htr. cbn [map]. by rewrite <- app_assoc.
    + intros sig Hsig.
      destruct (decide (sig ∈ pre)) as [Hpre|Hpre]; [by apply Hin|].
      apply elem_of_cons in Hsig as [->|?]; [|done].
      unfold disposition. by rewrite (Hout _ Hpre), Hs1, lookup_insert_eq.
    + intros sig Hsig. apply not_elem_of_cons in Hsig as [Hne Hpre].
      by rewrite (Hout _ Hpre), Hs1, lookup_insert_ne.
  - intros [= <-]. exists [], s, rest. split; [done|].
    split.
    { unfold sigaction in Hsa.
      by destruct (catchable s && negb (refused (SysSigaction s))). }
    split; [by rewrite app_nil_r|]. split; [|done].
    intros sig Hsig. by apply not_elem_of_nil in Hsig.
Qed.

(** X12. The state at an abort.  Either the mask query failed and
    nothing was changed, or the registration failed for one signal of the
    catalog: the handler is then installed for the signals before it, no
    other disposition was touched, and nothing is rolled back. *)
Theorem abort_leaves_prefix_installed refused w w' :
  _register_signal_handlers refused w = Aborts w' →
  (refused SysSigprocmask = true ∧ w' = w)
  ∨ ∃ pre s post,
      catalog = pre ++ s :: post
      ∧ catchable s && negb (refused (SysSigaction s)) = false
      ∧ trace w' = trace w ++ map EvRegistryWrite pre
      ∧ (∀ sig, sig ∈ pre →
           sa_handler (disposition (os w') sig) = host_signal_handler_addr)
      ∧ (∀ sig, sig ∉ pre →
           os_sigtable (os w') !! sig = os_sigtable (os w) !! sig).
Proof.
  rewrite register_signal_handlers_eq.
  destruct (refused SysSigprocmask); [intros [= <-]; by left|].
  destruct (register_signals refused catalog _ w) as [[act' w'']|w'']
    eqn:Hreg; [done|].
  intros [= ->]. right. by apply register_signals_aborted in Hreg.
Qed.

(** X13. Initialisation is not idempotent.  A second successful run saves,
    for every signal of the catalog, the multiplexing handler itself as
    the previous handler; an unhandled delivery then chains from the
    handler into the handler. *)
Theorem second_initialisation_saves_handler refused refused2 w0 w1 w2 sig :
  NoDup catalog →
  _register_signal_handlers refused w0 = Returns w1 →
  _register_signal_handlers refused2 w1 = Returns w2 →
  sig ∈ catalog →
  sa_handler (entry (g_previous_sigaction w2) sig) = host_signal_handler_addr
  ∧ (host_signal_handler_addr ≠ SIG_DFL →
     ∀ code rt sig_info sig_data,
       not_handled rt sig sig_info sig_data →
       ∃ c mask,
         EvCall host_signal_handler_addr c mask
         ∈ trace (_host_signal_handler code rt sig sig_info sig_data w2)).
Proof.
  intros Hnd Hfirst Hsecond Hin.
  apply register_signal_handlers_returns in Hfirst as (_ & act1 & Hreg1).
  apply register_signal_handlers_returns in Hsecond as (_ & act2 & Hreg2).
  assert (sa_handler (entry (g_previous_sigaction w2) sig)
          = host_signal_handler_addr) as Hsaved.
  { rewrite (register_signals_saved _ _ _ _ _ _ _ Hnd Hreg2 Hin).
    by destruct (register_signals_installed _ _ _ _ _ _ sig Hreg1 Hin). }
  split; [done|]. intros Hne code rt sig_info sig_data Hact.
  pose proof (chain_enters_previous code rt sig sig_info sig_data w2 Hact)
    as Hcall.
  cbn zeta in Hcall. rewrite Hsaved in Hcall. eauto.
Qed.

(** X14. The mask each catalog signal is registered with, for the signal
    at position [k] of the catalog: it never holds the signal itself; on
    a signal outside the catalog it agrees with the caller's mask; and it
    holds another signal of the catalog exactly when the caller had it
    blocked and it comes later in the catalog. *)
Theorem registered_mask_shape refused w w' k sig :
  NoDup catalog →
  _register_signal_handlers refused w = Returns w' →
  catalog !! k = Some sig →
  let mask := sa_mask (disposition (os w') sig) in
  (sig ∉ mask)
  ∧ (∀ x, x ∉ catalog → x ∈ mask ↔ x ∈ os_sigmask (os w))
  ∧ (∀ j x, catalog !! j = Some x →
       x ∈ mask ↔ x ∈ os_sigmask (os w) ∧ (k < j)%nat).
Proof.
  intros Hnd Hret Hk mask. subst mask.
  assert (∀ j x, catalog !! j = Some x →
            x ∈ take (S k) catalog ↔ (j ≤ k)%nat) as Hpos.
  { intros j x Hj. rewrite elem_of_take. split.
    - intros (i & Hi & Hlt).
      rewrite (NoDup_lookup _ _ _ _ Hnd Hj Hi). lia.
    - intros Hle. exists j. split; [done|lia]. }
  split; [|split].
  - rewrite (registered_mask refused w w' k sig sig Hnd Hret Hk).
    intros [_ Hnot]. apply Hnot. by apply (Hpos k).
  - intros x Hx. rewrite (registered_mask refused w w' k sig x Hnd Hret Hk).
    split; [by intros [? _]|]. intros Hcaller. split; [done|].
    intros Hin. apply Hx. apply elem_of_take in Hin as (i & Hi & _).
    by apply list_elem_of_lookup_2 in Hi.
  - intros j x Hj.
    rewrite (registered_mask refused w w' k sig x Hnd Hret Hk), (Hpos j x Hj).
    split; intros [? ?]; (split; [done|lia]).
Qed.

End Initialisation.

(** * The flag tests *)

Section Flags.

(** Testing a flag that is a single bit reads that bit. *)
Lemma has_flag_pow2 flags k :
  0 ≤ k → has_flag flags (2 ^ k) = Z.testbit flags k.
Proof.
  intros Hk. unfold has_flag.
  destruct (Z.testbit flags k) eqn:Hbit.
  - apply negb_true_iff, Z.eqb_neq. intros Hzero.
    assert (Z.testbit (Z.land flags (2 ^ k)) k = true) as Hland.
    { by rewrite Z.land_spec, Hbit, Z.pow2_bits_true. }
    by rewrite Hzero, Z.bits_0 in Hland.
  - apply negb_false_iff, Z.eqb_eq. apply Z.bits_inj'. intros n Hn.
    rewrite Z.land_spec, Z.bits_0, Z.pow2_bits_eqb by done.
    destruct (Z.eqb_spec k n) as [->|_]; [by rewrite Hbit|].
    apply andb_false_r.
Qed.

(** Testing an [int] against the [int] with only the sign bit set reads
    the sign. *)
Lemma has_flag_sign flags :
  is_int flags →
  has_flag flags (- 2 ^ 31) = Z.testbit flags 31
  ∧ (has_flag flags (- 2 ^ 31) = true ↔ flags < 0).
Proof.
  unfold is_int. intros Hrange.
  assert (Z.land flags (- 2 ^ 31) = flags / 2 ^ 31 * 2 ^ 31) as Hland.
  { change (- 2 ^ 31) with (Z.lnot (Z.ones 31)).
    rewrite <- Z.ldiff_land, Z.ldiff_ones_r by lia.
    by rewrite Z.shiftl_mul_pow2, Z.shiftr_div_pow2 by lia. }
  assert (Z.testbit flags 31 = Z.odd (flags / 2 ^ 31)) as Hbit.
  { by rewrite Z.testbit_odd, Z.shiftr_div_pow2 by lia. }
  unfold has_flag. rewrite Hland, Hbit.
  destruct (Z.neg_nonneg_cases flags) as [Hneg|Hpos].
  - assert (flags / 2 ^ 31 = -1) as ->.
    { symmetry. apply (Z.div_unique flags (2 ^ 31) (-1) (flags + 2 ^ 31)); lia. }
    split; [done|]. split; [lia|done].
  - rewrite Z.div_small by lia. split; [done|]. split; [done|lia].
Qed.

End Flags.

Section LinuxFlags.

#[local] Existing Instance linux_x86_64.

(** X15. The three tests of the chaining branch on the saved flags, with
    the values of x86-64 Linux: each reads one bit of the [int], bit 30
    for SA_NODEFER, bit 2 for SA_SIGINFO and, through the conversion of
    SA_RESETHAND to [int], the sign bit for SA_RESETHAND; no other flag
    can make a test succeed. *)
Theorem linux_flag_tests_read_one_bit flags :
  is_int flags →
  has_flag flags SA_NODEFER = Z.testbit flags 30
  ∧ has_flag flags SA_SIGINFO = Z.testbit flags 2
  ∧ has_flag flags (to_int SA_RESETHAND) = Z.testbit flags 31
  ∧ (has_flag flags (to_int SA_RESETHAND) = true ↔ flags < 0).
Proof.
  intros Hint.
  change SA_NODEFER with (2 ^ 30). change SA_SIGINFO with (2 ^ 2).
  change (to_int SA_RESETHAND) with (- 2 ^ 31).
  rewrite !has_flag_pow2 by lia.
  destruct (has_flag_sign flags Hint) as [Hbit Hsign].
  split; [done|]. split; [done|]. split; [exact Hbit|exact Hsign].
Qed.

End LinuxFlags.

(** * Further runs on x86-64 Linux *)

Section LinuxRuns.

#[local] Existing Instance linux_x86_64.

Local Ltac run := vm_compute; first [reflexivity | exact I | discriminate].
Local Ltac decided :=
  match goal with |- ?P => apply (bool_decide_unpack P); run end.

Local Abbreviation deliver rt :=
  (_host_signal_handler returning_handler rt).
Local Abbreviation with_handler flags mask :=
  (installed (process (sigusr1_handler flags) mask)).

Lemma zero_reported_iff_hidden_witness :
  0 < SIGBUS < 2 ^ 31
  ∧ SIGBUS ∈ default_signals
  ∧ signal_number (host_context_of SIGBUS sample_info sample_context) = 0.
Proof.
  assert (0 < SIGBUS < 2 ^ 31) as Hrange by (split; run).
  assert (SIGBUS ∈ default_signals) as Hin by decided.
  split; [exact Hrange|]. split; [exact Hin|].
  apply (zero_reported_iff_hidden SIGBUS sample_info sample_context Hrange).
  split; [exact Hin|run].
Defined.

Lemma delivery_keeps_other_dispositions_witness :
  let w := with_handler 0 ∅ in
  let w' := deliver runtime_declines SIGUSR1 sample_info sample_context w in
  sa_handler (disposition (os w) SIGSEGV) = host_signal_handler_addr
  ∧ os_sigtable (os w') !! SIGSEGV = os_sigtable (os w) !! SIGSEGV.
Proof.
  cbv zeta. split; [run|].
  apply (delivery_keeps_other_dispositions returning_handler runtime_declines
           SIGUSR1 sample_info sample_context (with_handler 0 ∅) SIGSEGV).
  - run.
  - intros addr c st. reflexivity.
Defined.

Lemma chained_handler_unblocks_current_mask_witness :
  let w := with_handler 0 {[SIGALRM]} in
  let prev := entry (g_previous_sigaction w) SIGUSR1 in
  SIGALRM ∈ os_sigmask (os w)
  ∧ sa_handler prev = 0x5000
  ∧ chained_call prev SIGUSR1 sample_info sample_context = CallHandler SIGUSR1
  ∧ ∃ mask,
      EvCall (sa_handler prev)
        (chained_call prev SIGUSR1 sample_info sample_context) mask
      ∈ trace (deliver runtime_declines SIGUSR1 sample_info sample_context w)
      ∧ (SIGALRM ∉ mask)
      ∧ os_sigmask (chained_entry_state prev SIGUSR1 (os w)) = mask.
Proof.
  cbv zeta.
  assert (SIGALRM ∈ os_sigmask (os (with_handler 0 {[SIGALRM]}))) as Hblocked
    by decided.
  split; [exact Hblocked|]. split; [run|]. split; [run|].
  apply (chained_handler_unblocks_current_mask returning_handler
           runtime_declines SIGUSR1 sample_info sample_context
           (with_handler 0 {[SIGALRM]}) SIGALRM);
    first [exact Hblocked | decided | run].
Defined.

Lemma registry_settles_after_chain_witness :
  let w := with_handler 0 ∅ in
  let w' := deliver runtime_declines SIGUSR1 sample_info sample_context w in
  let w'' := deliver runtime_declines SIGUSR1 sample_info sample_context w' in
  sa_handler (entry (g_previous_sigaction w) SIGUSR1) = 0x5000
  ∧ sa_mask (entry (g_previous_sigaction w) SIGUSR1) = ∅
  ∧ sa_mask (entry (g_previous_sigaction w') SIGUSR1) = {[SIGUSR1]}
  ∧ g_previous_sigaction w'' = g_previous_sigaction w'.
Proof.
  cbv zeta. split; [run|]. split; [run|]. split; [run|].
  apply (registry_settles_after_chain returning_handler runtime_declines
           SIGUSR1 sample_info sample_context (with_handler 0 ∅));
    first [reflexivity | run].
Defined.

Lemma after_one_shot_default_policy_witness :
  let w := with_handler one_shot_flags ∅ in
  let w' := deliver runtime_declines SIGUSR1 sample_info sample_context w in
  let w'' := deliver runtime_declines SIGUSR1 sample_info sample_context w' in
  SIGUSR1 ∈ optional_signals
  ∧ has_flag (sa_flags (entry (g_previous_sigaction w) SIGUSR1))
      (to_int SA_RESETHAND) = true
  ∧ os w'' = os w'
  ∧ trace w''
    = trace w'
      ++ [EvSubmit (host_context_of SIGUSR1 sample_info sample_context)].
Proof.
  cbv zeta.
  assert (SIGUSR1 ∈ optional_signals) as Hopt by decided.
  split; [exact Hopt|]. split; [run|].
  destruct (after_one_shot_default_policy returning_handler runtime_declines
    SIGUSR1 sample_info sample_context (with_handler one_shot_flags ∅))
    with (rt2 := runtime_declines) (sig_info2 := sample_info)
         (sig_data2 := sample_context)
         (w2 := deliver runtime_declines SIGUSR1 sample_info sample_context
                  (with_handler one_shot_flags ∅))
    as [Hswallow _]; [run | run | run | reflexivity | run |].
  apply Hswallow; [exact Hopt|run].
Defined.

Lemma initialisation_frame_witness :
  let w := process (sigusr1_handler 0) {[SIGALRM]} in
  _register_signal_handlers nothing_refused w = Returns (installed w)
  ∧ os_sigmask (os (installed w)) = {[SIGALRM]}.
Proof.
  cbv zeta.
  assert (_register_signal_handlers nothing_refused
            (process (sigusr1_handler 0) {[SIGALRM]})
          = Returns (installed (process (sigusr1_handler 0) {[SIGALRM]})))
    as Hret by run.
  split; [exact Hret|].
  destruct (initialisation_frame nothing_refused _ _ Hret) as [Hmask _].
  rewrite Hmask. run.
Defined.

Lemma abort_leaves_prefix_installed_witness :
  let w := process ∅ ∅ in
  let w' := outcome_world (_register_signal_handlers sigusr2_refused w) in
  _register_signal_handlers sigusr2_refused w = Aborts w'
  ∧ ((sigusr2_refused SysSigprocmask = true ∧ w' = w)
     ∨ ∃ pre s post,
         catalog = pre ++ s :: post
         ∧ catchable s && negb (sigusr2_refused (SysSigaction s)) = false
         ∧ trace w' = trace w ++ map EvRegistryWrite pre
         ∧ (∀ sig, sig ∈ pre →
              sa_handler (disposition (os w') sig) = host_signal_handler_addr)
         ∧ (∀ sig, sig ∉ pre →
              os_sigtable (os w') !! sig = os_sigtable (os w) !! sig)).
Proof.
  cbv zeta.
  assert (_register_signal_handlers sigusr2_refused (process ∅ ∅)
          = Aborts (outcome_world
                      (_register_signal_handlers sigusr2_refused
                         (process ∅ ∅)))) as Habort by run.
  split; [exact Habort|].
  exact (abort_leaves_prefix_installed sigusr2_refused _ _ Habort).
Defined.

Lemma second_initialisation_saves_handler_witness :
  let w0 := process ∅ ∅ in
  NoDup catalog
  ∧ _register_signal_handlers nothing_refused w0 = Returns (installed w0)
  ∧ _register_signal_handlers nothing_refused (installed w0)
    = Returns (installed (installed w0))
  ∧ sa_handler (entry (g_previous_sigaction (installed (installed w0))) SIGSEGV)
    = host_signal_handler_addr.
Proof.
  cbv zeta.
  assert (NoDup catalog) as Hnd by decided.
  assert (_register_signal_handlers nothing_refused (process ∅ ∅)
          = Returns (installed (process ∅ ∅))) as Hfirst by run.
  assert (_register_signal_handlers nothing_refused (installed (process ∅ ∅))
          = Returns (installed (installed (process ∅ ∅)))) as Hsecond by run.
  split; [exact Hnd|]. split; [exact Hfirst|]. split; [exact Hsecond|].
  destruct (second_initialisation_saves_handler nothing_refused
    nothing_refused _ _ _ SIGSEGV Hnd Hfirst Hsecond) as [Hsaved _];
    [decided|exact Hsaved].
Defined.

Lemma registered_mask_shape_witness :
  let w := process ∅ {[SIGUSR2]} in
  let mask := sa_mask (disposition (os (installed w)) SIGBUS) in
  NoDup catalog
  ∧ catalog !! 0%nat = Some SIGBUS
  ∧ catalog !! 11%nat = Some SIGUSR2
  ∧ (SIGBUS ∉ mask)
  ∧ SIGUSR2 ∈ mask.
Proof.
  cbv zeta.
  assert (NoDup catalog) as Hnd by decided.
  assert (_register_signal_handlers nothing_refused (process ∅ {[SIGUSR2]})
          = Returns (installed (process ∅ {[SIGUSR2]}))) as Hret by run.
  assert (catalog !! 0%nat = Some SIGBUS) as Hk by run.
  assert (catalog !! 11%nat = Some SIGUSR2) as Hj by run.
  split; [exact Hnd|]. split; [exact Hk|]. split; [exact Hj|].
  destruct (registered_mask_shape nothing_refused _ _ 0%nat SIGBUS Hnd Hret Hk)
    as (Hown & _ & Hlater).
  split; [exact Hown|]. apply (Hlater 11%nat SIGUSR2 Hj).
  split; [decided|lia].
Defined.

Lemma linux_flag_tests_read_one_bit_witness :
  is_int one_shot_flags
  ∧ has_flag one_shot_flags SA_NODEFER = false
  ∧ has_flag one_shot_flags SA_SIGINFO = false
  ∧ has_flag one_shot_flags (to_int SA_RESETHAND) = true.
Proof.
  assert (is_int one_shot_flags) as Hint by (split; run).
  destruct (linux_flag_tests_read_one_bit one_shot_flags Hint)
    as (Hnodefer & Hsiginfo & Hreset & _).
  split; [exact Hint|]. rewrite Hnodefer, Hsiginfo, Hreset.
  split; [run|]. split; run.
Defined.

End LinuxRuns.

(** * Entries of the registry that were never written *)

Section Unwritten.

Context `{Platform}.
Variable code : Z → call → os_state → os_state.
Variable rt : oe_host_exception_context_t → Z.

(** X16. The array is zeroed static storage.  Where SIG_DFL is the null
    pointer, an entry that was never written reads as the default
    disposition: a delivery that finds no entry for its signal never
    reaches the chaining branch, calls no previous handler and stores
    nothing into the registry. *)
Theorem unwritten_entry_reads_as_default sig_num sig_info sig_data w :
  SIG_DFL = 0 →
  g_previous_sigaction w !! sig_num = None →
  let w' := _host_signal_handler code rt sig_num sig_info sig_data w in
  chains rt sig_num sig_info sig_data w = false
  ∧ g_previous_sigaction w' = g_previous_sigaction w
  ∧ ∃ evs, trace w' = trace w ++ evs ∧ List.filter is_call evs = [].
Proof.
  intros Hnull Hnone w'. subst w'.
  assert (sa_handler (entry (g_previous_sigaction w) sig_num) = SIG_DFL)
    as Hdfl.
  { unfold entry. by rewrite Hnone, Hnull. }
  split; [|split].
  - unfold chains. rewrite Hdfl, Z.eqb_refl. apply andb_false_r.
  - apply delivery_without_chain_keeps_registry. by right.
  - destruct (decide (rt (host_context_of sig_num sig_info sig_data)
                      = OE_EXCEPTION_CONTINUE_EXECUTION)) as [Hact|Hact].
    { rewrite handler_continue by done. by eexists. }
    rewrite handler_default by done. cbn zeta.
    destruct (bypass_optional_signal sig_num optional_signals);
      [by eexists|].
    destruct (raise_events sig_num
      (set_os (signal sig_num SIG_DFL
                 (os (log (EvSubmit (host_context_of sig_num sig_info
                                       sig_data)) w)))
         (log (EvSubmit (host_context_of sig_num sig_info sig_data)) w)))
      as (evs & -> & _ & Hcall).
    cbn [set_os log trace]. rewrite <- app_assoc. eexists. split; [done|].
    cbn [app List.filter is_submit is_call]. exact Hcall.
Qed.

End Unwritten.

Section LinuxUnwritten.

#[local] Existing Instance linux_x86_64.

Lemma unwritten_entry_reads_as_default_witness :
  let w := process (sigusr1_handler 0) ∅ in
  let w' := _host_signal_handler returning_handler runtime_declines
              SIGUSR1 sample_info sample_context w in
  SIG_DFL = 0
  ∧ g_previous_sigaction w !! SIGUSR1 = None
  ∧ sa_handler (disposition (os w) SIGUSR1) = 0x5000
  ∧ g_previous_sigaction w' = g_previous_sigaction w.
Proof.
  cbv zeta.
  assert (g_previous_sigaction (process (sigusr1_handler 0) ∅) !! SIGUSR1
          = None) as Hnone by (vm_compute; reflexivity).
  assert (SIG_DFL = 0) as Hnull by reflexivity.
  split; [exact Hnull|]. split; [exact Hnone|].
  split; [vm_compute; reflexivity|].
  destruct (unwritten_entry_reads_as_default returning_handler
    runtime_declines SIGUSR1 sample_info sample_context
    (process (sigusr1_handler 0) ∅) Hnull Hnone) as (_ & Hreg & _).
  exact Hreg.
Defined.

End LinuxUnwritten.
